(** * InsightAI dashboard: CSV ingestion and conversation state

    A shallow embedding of the logic of [src/App.tsx] ([parseCSV] with its
    inner [parseLine], [handleFileUpload], [handleSendMessage], [clearChat],
    [downloadCSV]) and of the error wrapping of [analyzeData] in the Gemini
    service, followed by the properties the specification states about them.

    Conventions.
    - A JavaScript string is a [string]: a sequence of code units, here the
      code units below 256.
    - A JavaScript number is an IEEE 754 binary64 value, a [spec_float] with
      precision 53 and maximal exponent 1024.
    - A plain object used as a dictionary is a [gmap string _]; an array is a
      [list], read with [!!] ([None] is JavaScript's [undefined]). *)

From Stdlib Require Import ZArith NArith List String Ascii Bool Lia DecimalString.
From Stdlib Require Import Floats.SpecFloat.
From Stdlib Require DecimalPos.
From stdpp Require Import base option list gmap strings.

Local Open Scope string_scope.

(** ** The JavaScript runtime functions the program calls *)
Module JS.

Definition LF : ascii := "010"%char.
Definition CR : ascii := "013"%char.
Definition quote : ascii := "034"%char.
Definition comma : ascii := ","%char.

(** WhiteSpace and LineTerminator code units (ECMAScript 12.2, 12.3)
    below 256: TAB, LF, VT, FF, CR, SP, NBSP. *)
Definition isWhiteSpace (c : ascii) : bool :=
  match N_of_ascii c with
  | 9 | 10 | 11 | 12 | 13 | 32 | 160 => true
  | _ => false
  end%N.

Fixpoint trimStart (s : string) : string :=
  match s with
  | String c s' => if isWhiteSpace c then trimStart s' else s
  | EmptyString => EmptyString
  end.

Fixpoint trimEnd (s : string) : string :=
  match s with
  | EmptyString => EmptyString
  | String c s' =>
      match trimEnd s' with
      | EmptyString => if isWhiteSpace c then EmptyString else String c EmptyString
      | t => String c t
      end
  end.

(** [String.prototype.trim]. *)
Definition trim (s : string) : string := trimEnd (trimStart s).

(** [s.split(/\r?\n/)]: a line feed, together with a carriage return
    right before it, separates two pieces; a carriage return alone does
    not.  The result is never empty: it keeps empty pieces, the last one
    included. *)
Fixpoint split_lines (s : string) : list string :=
  match s with
  | EmptyString => [EmptyString]
  | String c s' =>
      let keep :=
        match split_lines s' with
        | l :: ls => String c l :: ls
        | [] => [String c EmptyString]
        end in
      if Ascii.eqb c LF then EmptyString :: split_lines s'
      else if Ascii.eqb c CR then
        match s' with
        | String c' s'' =>
            if Ascii.eqb c' LF then EmptyString :: split_lines s'' else keep
        | EmptyString => keep
        end
      else keep
  end.

(** [s.replace(/,/g, '')]. *)
Fixpoint removeCommas (s : string) : string :=
  match s with
  | EmptyString => EmptyString
  | String c s' =>
      if Ascii.eqb c comma then removeCommas s' else String c (removeCommas s')
  end.

Fixpoint dropLastQuote (s : string) : string :=
  match s with
  | EmptyString => EmptyString
  | String c EmptyString => if Ascii.eqb c quote then EmptyString else s
  | String c s' => String c (dropLastQuote s')
  end.

(** [s.replace(/^"|"$/g, '')]: one double quote at the very start and one
    at the very end are removed, where present.  The two matches never
    overlap, so a string that is a single quote becomes empty. *)
Definition stripQuotes (s : string) : string :=
  match s with
  | String c s' => if Ascii.eqb c quote then dropLastQuote s' else dropLastQuote s
  | EmptyString => EmptyString
  end.

(** [s.substring(from, to)] for [from <= to]. *)
Definition substring (s : string) (from to : nat) : string :=
  String.substring from (to - from) s.

(** [s.substring(from)]. *)
Definition substringFrom (s : string) (from : nat) : string :=
  String.substring from (String.length s - from) s.

(** *** Numbers *)

Definition prec : Z := 53.
Definition emax : Z := 1024.

Definition NaN : spec_float := S754_nan.
Definition Infinity : spec_float := S754_infinity false.

(** [isNaN(x)] for a number [x]. *)
Definition isNaN (x : spec_float) : bool :=
  match x with
  | S754_nan => true
  | _ => false
  end.

(** [Number.isFinite(x)]. *)
Definition isFinite (x : spec_float) : bool :=
  match x with
  | S754_zero _ | S754_finite _ _ _ => true
  | S754_nan | S754_infinity _ => false
  end.

(** The same binary64 datum (zeros of different sign differ). *)
Definition sameFloat (x y : spec_float) : bool :=
  match x, y with
  | S754_zero a, S754_zero b => Bool.eqb a b
  | S754_infinity a, S754_infinity b => Bool.eqb a b
  | S754_nan, S754_nan => true
  | S754_finite a m e, S754_finite b m' e' =>
      Bool.eqb a b && Pos.eqb m m' && Z.eqb e e'
  | _, _ => false
  end.

(** The Number value for an integer: the nearest binary64, ties to even. *)
Definition ofZ (z : Z) : spec_float := binary_normalize prec emax z 0%Z false.

(** The Number value for [(-1)^neg * m * 10^e]: the nearest binary64, ties
    to even, with overflow to an infinity and underflow to a signed zero. *)
Definition ofDecimal (neg : bool) (m : N) (e : Z) : spec_float :=
  match m with
  | N0 => S754_zero neg
  | Npos p =>
      if (0 <=? e)%Z then binary_round prec emax neg (p * Z.to_pos (10 ^ e)) 0%Z
      else SFdiv prec emax (S754_finite neg p 0%Z)
                           (S754_finite false (Z.to_pos (10 ^ (- e))) 0%Z)
  end.

Definition digitValue (base : N) (c : ascii) : option N :=
  let n := N_of_ascii c in
  let d :=
    if ((48 <=? n) && (n <=? 57))%N then Some (n - 48)%N
    else if ((97 <=? n) && (n <=? 102))%N then Some (n - 87)%N
    else if ((65 <=? n) && (n <=? 70))%N then Some (n - 55)%N
    else None in
  match d with
  | Some v => if (v <? base)%N then Some v else None
  | None => None
  end.

(** The longest run of digits at the start of [s]: its value on top of
    [acc], how many digits there were, and what follows them. *)
Fixpoint readDigits (base : N) (s : string) (acc : N) (count : nat)
  : N * nat * string :=
  match s with
  | String c s' =>
      match digitValue base c with
      | Some d => readDigits base s' (acc * base + d)%N (S count)
      | None => (acc, count, s)
      end
  | EmptyString => (acc, count, s)
  end.

(** ExponentPart, optional, up to the end of the string. *)
Definition readExponent (s : string) : option Z :=
  match s with
  | EmptyString => Some 0%Z
  | String c s' =>
      if Ascii.eqb c "e" || Ascii.eqb c "E" then
        let '(neg, ds) :=
          match s' with
          | String "+" r => (false, r)
          | String "-" r => (true, r)
          | _ => (false, s')
          end in
        match readDigits 10%N ds 0%N 0%nat with
        | (v, S _, EmptyString) => Some (cond_Zopp neg (Z.of_N v))
        | _ => None
        end
      else None
  end.

(** StrUnsignedDecimalLiteral other than [Infinity], as mantissa and
    decimal exponent. *)
Definition readUnsignedDecimal (s : string) : option (N * Z) :=
  let '(i, ni, r) := readDigits 10%N s 0%N 0%nat in
  match r with
  | String "." r' =>
      let '(m, nf, r'') := readDigits 10%N r' i 0%nat in
      match ni, nf with
      | O, O => None
      | _, _ =>
          match readExponent r'' with
          | Some e => Some (m, (e - Z.of_nat nf)%Z)
          | None => None
          end
      end
  | _ =>
      match ni with
      | O => None
      | S _ =>
          match readExponent r with
          | Some e => Some (i, e)
          | None => None
          end
      end
  end.

Definition unsignedDecimal (neg : bool) (s : string) : spec_float :=
  if String.eqb s "Infinity" then S754_infinity neg
  else match readUnsignedDecimal s with
       | Some (m, e) => ofDecimal neg m e
       | None => NaN
       end.

(** NonDecimalIntegerLiteral: the digits after the two-character prefix. *)
Definition nonDecimal (base : N) (digits : string) : spec_float :=
  match readDigits base digits 0%N 0%nat with
  | (v, S _, EmptyString) => ofZ (Z.of_N v)
  | _ => NaN
  end.

(** StrNumericLiteral: a signed decimal literal, or an unsigned literal
    with one of the prefixes [0x], [0o], [0b] in either case. *)
Definition strNumericLiteral (s : string) : spec_float :=
  match s with
  | String c r =>
      if Ascii.eqb c "+" then unsignedDecimal false r
      else if Ascii.eqb c "-" then unsignedDecimal true r
      else if Ascii.eqb c "0" then
        match r with
        | String p ds =>
            if Ascii.eqb p "x" || Ascii.eqb p "X" then nonDecimal 16%N ds
            else if Ascii.eqb p "o" || Ascii.eqb p "O" then nonDecimal 8%N ds
            else if Ascii.eqb p "b" || Ascii.eqb p "B" then nonDecimal 2%N ds
            else unsignedDecimal false s
        | EmptyString => unsignedDecimal false s
        end
      else unsignedDecimal false s
  | EmptyString => unsignedDecimal false s
  end.

(** [Number(s)] for a string [s] (StringToNumber, ECMAScript 7.1.4.1.1):
    blank text is [+0], text outside the grammar is [NaN]. *)
Definition Number (s : string) : spec_float :=
  match trim s with
  | EmptyString => S754_zero false
  | t => strNumericLiteral t
  end.

(** Decimal digits of a natural number, ["0"] for zero. *)
Definition digitsOfN (n : N) : string :=
  NilEmpty.string_of_uint (N.to_uint n).

Fixpoint zeros (n : nat) : string :=
  match n with
  | O => EmptyString
  | S n' => String "0" (zeros n')
  end.

(** [x / 10^p] for the positive value [x = m * 2^e], as a fraction of
    two positive integers. *)
Definition scaleByPow10 (m : positive) (e p : Z) : Z * Z :=
  let num := (Z.pos m * 2 ^ Z.max e 0 * 10 ^ Z.max (- p) 0)%Z in
  let den := (2 ^ Z.max (- e) 0 * 10 ^ Z.max p 0)%Z in
  (num, den).

(** The least [n] from [n0] on with [m * 2^e < 10^n]. *)
Fixpoint decade (fuel : nat) (m : positive) (e n0 : Z) : Z :=
  match fuel with
  | O => n0
  | S fuel' =>
      let '(num, den) := scaleByPow10 m e n0 in
      if (num <? den)%Z then n0 else decade fuel' m e (n0 + 1)%Z
  end.

(** Number::toString, step 5, for [x = m * 2^e > 0] in the decade
    [10^(n-1) <= x < 10^n]: the least digit count [k] from [k0] on for
    which a [k]-digit [s] has [s * 10^(n-k)] round to [x]; of the two
    neighbours of [x / 10^(n-k)] the nearer one, the even one on a tie. *)
Fixpoint shortest (fuel : nat) (m : positive) (e n : Z) (k0 : Z) : N * Z :=
  let '(num, den) := scaleByPow10 m e (n - k0) in
  let lo := (num / den)%Z in
  let hi := (lo + 1)%Z in
  let okLo := sameFloat (ofDecimal false (Z.to_N lo) (n - k0)) (S754_finite false m e) in
  let okHi := sameFloat (ofDecimal false (Z.to_N hi) (n - k0)) (S754_finite false m e) in
  let preferLo :=
    match (2 * (num mod den) ?= den)%Z with
    | Lt => true
    | Gt => false
    | Eq => Z.even lo
    end in
  let pick (s : Z) :=
    if (s =? 10 ^ k0)%Z then (1%N, (n + 1)%Z) else (Z.to_N s, n) in
  match fuel with
  | O => pick lo
  | S fuel' =>
      if okLo && (preferLo || negb okHi) then pick lo
      else if okHi then pick hi
      else shortest fuel' m e n (k0 + 1)%Z
  end.

(** Trailing zeros of [s] do not count as digits. *)
Fixpoint dropTrailingZeros (fuel : nat) (s : N) : N :=
  match fuel with
  | O => s
  | S fuel' =>
      if ((0 <? s) && (s mod 10 =? 0))%N then dropTrailingZeros fuel' (s / 10)%N
      else s
  end.

(** Number::toString, steps 6 to 12, from the digits of [s] and the
    position [n] of the decimal point. *)
Definition formatDigits (digits : string) (n : Z) : string :=
  let k := Z.of_nat (String.length digits) in
  if ((-5 <=? n) && (n <=? 21))%Z then
    if (k <=? n)%Z then digits ++ zeros (Z.to_nat (n - k))
    else if (0 <? n)%Z then
      String.substring 0 (Z.to_nat n) digits ++ "." ++
      String.substring (Z.to_nat n) (Z.to_nat (k - n)) digits
    else "0." ++ zeros (Z.to_nat (- n)) ++ digits
  else
    let e := (n - 1)%Z in
    let exponent :=
      (if (e <? 0)%Z then "-" else "+") ++ digitsOfN (Z.to_N (Z.abs e)) in
    if (k =? 1)%Z then digits ++ "e" ++ exponent
    else String.substring 0 1 digits ++ "." ++
         String.substring 1 (Z.to_nat (k - 1)) digits ++ "e" ++ exponent.

(** [String(x)] for a number [x] (Number::toString with radix 10). *)
Definition Number_toString (x : spec_float) : string :=
  match x with
  | S754_nan => "NaN"
  | S754_zero _ => "0"
  | S754_infinity neg => (if neg then "-" else "") ++ "Infinity"
  | S754_finite neg m e =>
      let n := decade 640 m e (-324) in
      let '(s, n') := shortest 17 m e n 1 in
      (if neg then "-" else "") ++
      formatDigits (digitsOfN (dropTrailingZeros 17 s)) n'
  end.

(** *** Values and plain objects *)

(** The values a cell of type [any] can hold here.  An object or function
    is kept as the text [String(v)] gives for it, which is all the program
    ever observes of one. *)
Inductive Value :=
| VUndefined
| VNull
| VNumber (x : spec_float)
| VString (s : string)
| VObject (text : string).

(** [String(v)], as a template literal applies it. *)
Definition ToString (v : Value) : string :=
  match v with
  | VUndefined => "undefined"
  | VNull => "null"
  | VNumber x => Number_toString x
  | VString s => s
  | VObject text => text
  end.

(** [a ?? b]. *)
Definition nullish (a b : Value) : Value :=
  match a with
  | VUndefined | VNull => b
  | _ => a
  end.

(** [obj[key] = v] on an object created by [{}], for a primitive [v]: an
    own property is created or overwritten, except for the key
    [__proto__], whose inherited setter ignores primitive values. *)
Definition setProperty (obj : gmap string Value) (key : string) (v : Value)
  : gmap string Value :=
  if String.eqb key "__proto__" then obj else <[key := v]> obj.

Definition nativeFunction (name : string) : Value :=
  VObject ("function " ++ name ++ "() { [native code] }").

(** What a plain object inherits from [Object.prototype]. *)
Definition inherited (key : string) : Value :=
  if String.eqb key "__proto__" then VObject "[object Object]"
  else if String.eqb key "constructor" then nativeFunction "Object"
  else if bool_decide (key ∈ ["toString"; "toLocaleString"; "valueOf";
                              "hasOwnProperty"; "isPrototypeOf";
                              "propertyIsEnumerable"; "__defineGetter__";
                              "__defineSetter__"; "__lookupGetter__";
                              "__lookupSetter__"])
  then nativeFunction key
  else VUndefined.

(** [obj[key]] on an object created by [{}]. *)
Definition getProperty (obj : gmap string Value) (key : string) : Value :=
  match obj !! key with
  | Some v => v
  | None => inherited key
  end.

(** [xs.join(sep)] for an array of strings. *)
Fixpoint join (sep : string) (xs : list string) : string :=
  match xs with
  | [] => EmptyString
  | [x] => x
  | x :: rest => x ++ sep ++ join sep rest
  end.

End JS.

(** ** [types.ts] *)

Record Dataset := {
  ds_name : string;
  ds_columns : list string;
  ds_data : list (gmap string JS.Value);
  ds_id : string
}.

Inductive ChartType := bar | line | pie | scatter | none.

Record AIResponse := {
  summary : string;
  insight : string;
  chartType : ChartType;
  chartData : list (gmap string JS.Value);
  xAxisLabel : option string;
  yAxisLabel : option string;
  suggestion : option string
}.

Inductive Role := user | assistant.

Record Message := {
  msg_id : string;
  msg_role : Role;
  msg_content : string;
  msg_response : option AIResponse;
  msg_timestamp : N
}.

(** ** [App.tsx]: the CSV parser *)

(** [.replace(/^"|"$/g, '').trim()], applied to every field. *)
Definition cleanField (s : string) : string := JS.trim (JS.stripQuotes s).

(** The [for] loop of [parseLine]; [rest] is [line] from index [i] on. *)
Fixpoint parseLine_loop (line rest : string) (i startValue : nat)
    (inQuotes : bool) (result : list string) : list string :=
  match rest with
  | EmptyString => result ++ [cleanField (JS.substringFrom line startValue)]
  | String c rest' =>
      let inQuotes := if Ascii.eqb c JS.quote then negb inQuotes else inQuotes in
      if Ascii.eqb c JS.comma && negb inQuotes
      then parseLine_loop line rest' (S i) (S i) inQuotes
             (result ++ [cleanField (JS.substring line startValue i)])
      else parseLine_loop line rest' (S i) startValue inQuotes result
  end.

Definition parseLine (line : string) : list string :=
  parseLine_loop line line 0 0 false [].

(** What the callback of [headers.forEach] assigns to [obj[header]], from
    [val = values[i]]. *)
Definition cellValue (val : option string) : JS.Value :=
  match val with
  | Some v =>
      if negb (String.eqb v "") && negb (JS.isNaN (JS.Number (JS.removeCommas v)))
      then JS.VNumber (JS.Number (JS.removeCommas v))
      else JS.VString v
  | None => JS.VUndefined
  end.

(** [headers.forEach((header, i) => ...)] from index [i] on. *)
Fixpoint forEach_header (headers : list string) (i : nat) (values : list string)
    (obj : gmap string JS.Value) : gmap string JS.Value :=
  match headers with
  | [] => obj
  | header :: rest =>
      forEach_header rest (S i) values
        (JS.setProperty obj header (cellValue (values !! i)))
  end.

(** The callback of [lines.slice(1).map]. *)
Definition parseRow (headers : list string) (line : string) : gmap string JS.Value :=
  forEach_header headers 0 (parseLine line) ∅.

Record ParseResult := {
  headers : list string;
  rows : list (gmap string JS.Value)
}.

(** [text.split(/\r?\n/).filter(l => l.trim() !== '')]. *)
Definition nonBlankLines (text : string) : list string :=
  List.filter (fun l => negb (String.eqb (JS.trim l) "")) (JS.split_lines text).

Definition parseCSV (text : string) : ParseResult :=
  match nonBlankLines text with
  | [] => {| headers := []; rows := [] |}
  | first :: rest =>
      let headers := parseLine first in
      {| headers := headers; rows := List.map (parseRow headers) rest |}
  end.

(** ** [App.tsx]: CSV export *)

(** The text [downloadCSV] puts in the file. *)
Definition csvContent (dataset : Dataset) : string :=
  let headers := JS.join "," (ds_columns dataset) in
  let rows :=
    List.map (fun row =>
      JS.join ","
        (List.map (fun col =>
           String JS.quote
             (JS.ToString (JS.nullish (JS.getProperty row col) (JS.VString ""))
              ++ String JS.quote ""))
           (ds_columns dataset)))
      (ds_data dataset) in
  JS.join (String JS.LF "") (headers :: rows).

(** [s.split('.')[0]]. *)
Fixpoint beforeDot (s : string) : string :=
  match s with
  | EmptyString => EmptyString
  | String c s' => if Ascii.eqb c "." then EmptyString else String c (beforeDot s')
  end.

(** [downloadCSV]: the name and the content of the file offered for
    download, nothing when no dataset is loaded. *)
Definition downloadCSV (dataset : option Dataset) : option (string * string) :=
  match dataset with
  | None => None
  | Some d =>
      Some ("InsightAI_" ++ beforeDot (ds_name d) ++ "_export.csv", csvContent d)
  end.

(** ** [services/geminiService]: [analyzeData] *)

(** One entry of the [history] argument, [{ role, content }]. *)
Record HistoryEntry := {
  h_role : Role;
  h_content : string
}.

(** What the [try] block of [analyzeData] runs into.  The statements
    before the block, which build the client and the prompt, are taken to
    complete. *)
Inductive TryOutcome :=
| Returned (parsed : AIResponse)
    (** [response.text] is a non-empty text and [JSON.parse] returns *)
| EmptyText
    (** [response.text] is missing or empty *)
| Threw (message : string)
    (** [generateContent] or [JSON.parse] throws an error whose [message]
        is this text, the empty text when it has none *).

(** [h.role === 'user' ? 'user' : 'model']. *)
Definition roleLabel (role : Role) : string :=
  match role with
  | user => "user"
  | assistant => "model"
  end.

(** The [contents] of the request: the history, with every role other than
    [user] sent as [model], followed by the query. *)
Definition requestContents (query : string) (history : list HistoryEntry)
  : list (string * string) :=
  List.map (fun h => (roleLabel (h_role h), h_content h)) history
  ++ [("user", query)].

Definition fallbackMessage : string :=
  "InsightAI is having trouble processing this request. Please try a different question.".

(** [error.message || fallback], the message of the error the [catch]
    block throws. *)
Definition rethrown (message : string) : string :=
  if String.eqb message "" then fallbackMessage else message.

(** The settled promise of [analyzeData]: the response, or the message of
    the error it rejects with.  The arguments go into the request; which
    way the call settles is up to [outcome]. *)
Definition analyzeData (query : string) (dataset : Dataset)
    (history : list HistoryEntry) (outcome : TryOutcome) : AIResponse + string :=
  match outcome with
  | Returned parsed => inl parsed
  | EmptyText => inr (rethrown "Empty AI response.")
  | Threw message => inr (rethrown message)
  end.

(** ** [App.tsx]: the component state and its handlers *)

Inductive Tab := TabDashboard | TabDataset | TabChat.

(** The state of [App] that the handlers below read or write: the
    [useState] cells and the [chartRefs] object, whose entries are the
    [current] of each ref, the mounted chart element or [None]. *)
Record AppState := {
  activeTab : Tab;
  dataset : option Dataset;
  messages : list Message;
  input : string;
  loading : bool;
  chartRefs : gmap string (option nat)
}.

Definition initialState : AppState :=
  {| activeTab := TabDashboard; dataset := None; messages := []; input := "";
     loading := false; chartRefs := ∅ |}.

Record File := {
  file_name : string;
  file_text : string
}.

(** [handleFileUpload] together with the [onload] callback it installs:
    the new state and whether the alert is shown.  [randomId] is
    [Math.random().toString(36).substr(2, 9)]. *)
Definition handleFileUpload (file : option File) (randomId : string)
    (st : AppState) : AppState * bool :=
  match file with
  | None => (st, false)
  | Some f =>
      let parsed := parseCSV (file_text f) in
      if Nat.eqb (List.length (headers parsed)) 0 then (st, true)
      else
        ({| activeTab := TabDataset;
            dataset := Some {| ds_id := randomId; ds_name := file_name f;
                               ds_columns := headers parsed;
                               ds_data := rows parsed |};
            messages := messages st;
            input := input st;
            loading := loading st;
            chartRefs := chartRefs st |}, false)
  end.

(** The arguments of a call of [analyzeData]. *)
Record AnalyzeCall := {
  call_query : string;
  call_dataset : Dataset;
  call_history : list HistoryEntry
}.

(** [messages.map(m => ({ role: m.role, content: m.content }))]. *)
Definition historyOf (ms : list Message) : list HistoryEntry :=
  List.map (fun m => {| h_role := msg_role m; h_content := msg_content m |}) ms.

(** [textOverride || input]. *)
Definition queryOf (textOverride : option string) (input : string) : string :=
  match textOverride with
  | Some t => if String.eqb t "" then input else t
  | None => input
  end.

(** [handleSendMessage] up to its [await]: the state it leaves and the call
    of [analyzeData] it starts, if any.  [now] is [Date.now()] and [date]
    is [new Date()], both in milliseconds. *)
Definition handleSendMessage (textOverride : option string) (now date : N)
    (st : AppState) : AppState * option AnalyzeCall :=
  let query := queryOf textOverride (input st) in
  match dataset st with
  | None => (st, None)
  | Some d =>
      if String.eqb (JS.trim query) "" || loading st then (st, None)
      else
        let userMsg :=
          {| msg_id := JS.digitsOfN now; msg_role := user; msg_content := query;
             msg_response := None; msg_timestamp := date |} in
        ({| activeTab := activeTab st;
            dataset := dataset st;
            messages := messages st ++ [userMsg];
            input := "";
            loading := true;
            chartRefs := chartRefs st |},
         Some {| call_query := query; call_dataset := d;
                 call_history := historyOf (messages st) |})
  end.

(** [handleSendMessage] from its [await] on, once [analyzeData] has
    settled: the [try] continuation or the [catch] block, then [finally]. *)
Definition handleSendMessage_settled (result : AIResponse + string)
    (now date : N) (st : AppState) : AppState :=
  let reply :=
    match result with
    | inl response =>
        {| msg_id := JS.digitsOfN (now + 1); msg_role := assistant;
           msg_content := insight response; msg_response := Some response;
           msg_timestamp := date |}
    | inr message =>
        {| msg_id := JS.digitsOfN (now + 1); msg_role := assistant;
           msg_content := message; msg_response := None;
           msg_timestamp := date |}
    end in
  {| activeTab := activeTab st;
     dataset := dataset st;
     messages := messages st ++ [reply];
     input := input st;
     loading := false;
     chartRefs := chartRefs st |}.

Definition clearChat (st : AppState) : AppState :=
  {| activeTab := activeTab st;
     dataset := dataset st;
     messages := [];
     input := input st;
     loading := loading st;
     chartRefs := ∅ |}.

(** The remove button of the data table:
    [setDataset(null); setActiveTab('dashboard'); clearChat()]. *)
Definition removeDataset (st : AppState) : AppState :=
  let st' := clearChat st in
  {| activeTab := TabDashboard;
     dataset := None;
     messages := messages st';
     input := input st';
     loading := loading st';
     chartRefs := chartRefs st' |}.

(** Rendering one message of the chat view: a message with a response gets
    a ref of its own, created once. *)
Definition renderMessage (refs : gmap string (option nat)) (m : Message)
  : gmap string (option nat) :=
  match msg_response m with
  | Some _ =>
      match refs !! msg_id m with
      | Some _ => refs
      | None => <[msg_id m := None]> refs
      end
  | None => refs
  end.

(** Rendering the chat view: the messages are shown when the chat tab is
    active and a dataset is loaded. *)
Definition renderChat (st : AppState) : AppState :=
  match activeTab st, dataset st with
  | TabChat, Some _ =>
      {| activeTab := activeTab st;
         dataset := dataset st;
         messages := messages st;
         input := input st;
         loading := loading st;
         chartRefs := fold_left renderMessage (messages st) (chartRefs st) |}
  | _, _ => st
  end.

(** ** The application as a transition system *)

(** What the user and the environment can do.  The application together
    with the call of [analyzeData] in flight, if any, is a [World].  Every
    handler runs on the state of the latest render, the one its closure
    was created in. *)
Inductive Event :=
| Upload (file : option File) (randomId : string)
| Send (textOverride : option string) (now date : N)
| Settle (outcome : TryOutcome) (now date : N)
| ClearChat
| RemoveDataset
| SetInput (text : string)
| SetActiveTab (tab : Tab)
| Render.

Record World := {
  app : AppState;
  inFlight : option AnalyzeCall
}.

Definition initialWorld : World := {| app := initialState; inFlight := None |}.

Definition step (w : World) (e : Event) : World :=
  match e with
  | Upload file randomId =>
      {| app := fst (handleFileUpload file randomId (app w)); inFlight := inFlight w |}
  | Send textOverride now date =>
      match handleSendMessage textOverride now date (app w) with
      | (st, Some call) => {| app := st; inFlight := Some call |}
      | (st, None) => {| app := st; inFlight := inFlight w |}
      end
  | Settle outcome now date =>
      match inFlight w with
      | Some call =>
          {| app := handleSendMessage_settled
                      (analyzeData (call_query call) (call_dataset call)
                         (call_history call) outcome)
                      now date (app w);
             inFlight := None |}
      | None => w
      end
  | ClearChat => {| app := clearChat (app w); inFlight := inFlight w |}
  | RemoveDataset => {| app := removeDataset (app w); inFlight := inFlight w |}
  | SetInput text =>
      {| app := {| activeTab := activeTab (app w); dataset := dataset (app w);
                   messages := messages (app w); input := text;
                   loading := loading (app w); chartRefs := chartRefs (app w) |};
         inFlight := inFlight w |}
  | SetActiveTab tab =>
      {| app := {| activeTab := tab; dataset := dataset (app w);
                   messages := messages (app w); input := input (app w);
                   loading := loading (app w); chartRefs := chartRefs (app w) |};
         inFlight := inFlight w |}
  | Render => {| app := renderChat (app w); inFlight := inFlight w |}
  end.

Definition run (w : World) (es : list Event) : World := fold_left step es w.

(** ** Definitions that follow the specification's words *)

(** Field splitting as the specification describes it: scan the characters
    left to right with an "inside quoted field" flag that every double
    quote toggles; a comma ends the current field only when the flag is
    false.  The fields are raw, quotes and blanks still on them. *)
Fixpoint splitFields (inside : bool) (line : string) : list string :=
  match line with
  | EmptyString => [EmptyString]
  | String c rest =>
      let inside' := if Ascii.eqb c JS.quote then negb inside else inside in
      if Ascii.eqb c JS.comma && negb inside' then
        EmptyString :: splitFields inside' rest
      else
        match splitFields inside' rest with
        | field :: fields => String c field :: fields
        | [] => [String c EmptyString]
        end
  end.

(** The same, position by position: the number of double quotes among the
    first [i] characters, and whether the character at [i] is a comma with
    an even number of quotes before it, the scan having started with the
    flag at [inside]. *)
Fixpoint quotesBefore (line : string) (i : nat) : nat :=
  match i, line with
  | S i', String c rest =>
      (if Ascii.eqb c JS.quote then 1 else 0) + quotesBefore rest i'
  | _, _ => 0
  end.

Definition separatorAt (inside : bool) (line : string) (i : nat) : bool :=
  match String.get i line with
  | Some c =>
      Ascii.eqb c JS.comma && negb (xorb inside (Nat.odd (quotesBefore line i)))
  | None => false
  end.

Definition separators (line : string) : list nat :=
  List.filter (separatorAt false line) (seq 0 (String.length line)).

(** The first of [pieces] that is not blank. *)
Definition firstNonBlank (first : string) (pieces : list string) : Prop :=
  exists i : nat,
    pieces !! i = Some first /\ JS.trim first <> "" /\
    forall (j : nat) (l : string), j < i -> pieces !! j = Some l -> JS.trim l = "".

Definition decimalDigits : list ascii :=
  ["0"; "1"; "2"; "3"; "4"; "5"; "6"; "7"; "8"; "9"]%char.

Definition isDigit (c : ascii) : bool :=
  bool_decide (is_Some (JS.digitValue 10 c)).

(** A field made of decimal digits and commas only. *)
Definition digitOrComma (c : ascii) : bool :=
  Ascii.eqb c JS.comma || isDigit c.

Fixpoint allChars (p : ascii -> bool) (s : string) : bool :=
  match s with
  | EmptyString => true
  | String c s' => p c && allChars p s'
  end.

(** The number the decimal digits of [s] write, commas skipped, on top of
    [acc]. *)
Fixpoint digitsValue (acc : N) (s : string) : N :=
  match s with
  | EmptyString => acc
  | String c s' =>
      match JS.digitValue 10 c with
      | Some d => digitsValue (acc * 10 + d) s'
      | None => digitsValue acc s'
      end
  end.

(** The line feed, a quoted text, and the inputs of the specification's
    scenarios. *)
Definition nl : string := String JS.LF "".

Definition quoted (s : string) : string :=
  String JS.quote (s ++ String JS.quote "").

Definition quotedLine : string := quoted "a,b" ++ ",2".

(** A header line with two columns and a data line with one field. *)
Definition shortCSV : string := "a,b" ++ nl ++ "1".

Definition sampleCSV : string :=
  "name,score" ++ nl ++ "Alice,10" ++ nl ++ "Bob,20" ++ nl.

Definition sampleDataset (p : ParseResult) (name id : string) : Dataset :=
  {| ds_name := name; ds_columns := headers p; ds_data := rows p; ds_id := id |}.

(** The specification's reading of short rows, for one text: in every row
    built from a line with fewer fields than there are headers, the columns
    beyond the field count are no keys of the row, and no value of the row
    is [undefined] or [null]. *)
Definition shortRowsLeaveColumnsAbsent (text : string) : Prop :=
  forall (first : string) (rest : list string) (n : nat) (line : string)
         (row : gmap string JS.Value),
    nonBlankLines text = first :: rest ->
    rest !! n = Some line ->
    rows (parseCSV text) !! n = Some row ->
    List.length (parseLine line) < List.length (headers (parseCSV text)) ->
    (forall (i : nat) (h : string),
        headers (parseCSV text) !! i = Some h ->
        List.length (parseLine line) <= i -> row !! h = None) /\
    (forall (key : string) (v : JS.Value),
        row !! key = Some v -> v <> JS.VUndefined /\ v <> JS.VNull).

(** The specification's reading of the coercion of one field: a number
    exactly when the field, commas stripped, is non-empty and parses to a
    finite number; the field itself otherwise. *)
Definition coercedIffFinite (val : string) : Prop :=
  let stripped := JS.removeCommas val in
  ((exists x, cellValue (Some val) = JS.VNumber x) <->
   (stripped <> "" /\ JS.isFinite (JS.Number stripped) = true)) /\
  ((~ exists x, cellValue (Some val) = JS.VNumber x) ->
   cellValue (Some val) = JS.VString val).


(** A state in which a submission is accepted: a dataset is loaded, the
    input holds a question, one exchange has taken place, nothing is in
    flight. *)
Definition scoresDataset : Dataset :=
  {| ds_name := "scores.csv"; ds_columns := ["name"; "score"]; ds_data := [];
     ds_id := "k3j9x2ab1" |}.

Definition earlierExchange : list Message :=
  [ {| msg_id := "1700000000000"; msg_role := user; msg_content := "How many rows?";
       msg_response := None; msg_timestamp := 1700000000000 |};
    {| msg_id := "1700000000901"; msg_role := assistant; msg_content := "None yet.";
       msg_response := None; msg_timestamp := 1700000000900 |} ].

Definition readyState : AppState :=
  {| activeTab := TabChat; dataset := Some scoresDataset;
     messages := earlierExchange; input := "Who scored most?";
     loading := false; chartRefs := ∅ |}.

(** The events that neither settle a call nor clear the chat. *)
Definition quiet (e : Event) : Prop :=
  match e with
  | Settle _ _ _ | ClearChat | RemoveDataset => False
  | _ => True
  end.

(** A session in which a reply arrives after its dataset was removed, and
    a second file is uploaded then. *)
Definition scoresFile : File :=
  {| file_name := "scores.csv"; file_text := sampleCSV |}.

Definition citiesFile : File :=
  {| file_name := "cities.csv"; file_text := "city,people" ++ nl ++ "Oslo,700000" |}.

Definition lateReplySession : list Event :=
  [ Upload (Some scoresFile) "k3j9x2ab1";
    SetActiveTab TabChat;
    Send (Some "Who scored most?") 1700000001000 1700000001000;
    SetActiveTab TabDataset;
    RemoveDataset;
    Settle (Threw "") 1700000002000 1700000002000 ].

(** ** Definitions for the further properties *)

Definition crlf : string := String JS.CR nl.

Definition notChar (x c : ascii) : bool := negb (Ascii.eqb c x).

(** A text with no line feed in it. *)
Definition oneLine (s : string) : bool := allChars (notChar JS.LF) s.

Fixpoint endsWithCR (s : string) : bool :=
  match s with
  | EmptyString => false
  | String c EmptyString => Ascii.eqb c JS.CR
  | String _ s' => endsWithCR s'
  end.

(** A line that comes back from [split_lines] as it is, whichever line
    break follows it. *)
Definition plainLine (s : string) : bool := oneLine s && negb (endsWithCR s).

(** [p] put in front of the first of [fields]. *)
Definition prependField (p : string) (fields : list string) : list string :=
  match fields with
  | field :: rest => (p ++ field) :: rest
  | [] => [p]
  end.

(** What [downloadCSV] writes between the quotes for the cell of [row]
    under [col], and the line it writes for [row]. *)
Definition exportedCell (row : gmap string JS.Value) (col : string) : string :=
  JS.ToString (JS.nullish (JS.getProperty row col) (JS.VString "")).

Definition exportedLine (cols : list string) (row : gmap string JS.Value) : string :=
  JS.join "," (List.map (fun col => quoted (exportedCell row col)) cols).

(** A column name that is written without quotes and read back as it is:
    no comma, quote or line feed in it, no white space at its ends. *)
Definition simpleName (s : string) : bool :=
  allChars (fun c => notChar JS.comma c && notChar JS.quote c) s
  && oneLine s && String.eqb (JS.trim s) s.

(** A cell text that the quotes around it protect: no quote and no line
    feed in it. *)
Definition quotable (s : string) : bool :=
  allChars (notChar JS.quote) s && oneLine s.

(** A dataset whose export [parseCSV] can read back: simple column names
    that make a line which is not blank, and quotable cell texts. *)
Definition exportable (d : Dataset) : bool :=
  forallb simpleName (ds_columns d)
  && negb (String.eqb (JS.trim (JS.join "," (ds_columns d))) "")
  && forallb (fun row => forallb (fun col => quotable (exportedCell row col))
                           (ds_columns d))
       (ds_data d).

(** A dataset with a missing value, a comma inside a text and an empty
    text. *)
Definition guestsDataset : Dataset :=
  {| ds_name := "guests.csv";
     ds_columns := ["name"; "city"];
     ds_data := [ <["name" := JS.VString "Ann, Dr."]> {["city" := JS.VUndefined]};
                  <["name" := JS.VString ""]> {["city" := JS.VString "Oslo"]} ];
     ds_id := "m2p0q8r4s" |}.

(** The dataset an upload gives for the columns [a] and [__proto__] with
    the line [1,2]: the rows have no value under the second column. *)
Definition protoDataset : Dataset :=
  {| ds_name := "proto.csv";
     ds_columns := ["a"; "__proto__"];
     ds_data := [ <["a" := JS.VNumber (JS.ofZ 1)]> ∅ ];
     ds_id := "q7w1e5r9t" |}.

(** The events that call [clearChat]. *)
Definition resets (e : Event) : bool :=
  match e with
  | ClearChat | RemoveDataset => true
  | _ => false
  end.

(** The role that the position of an exchange calls for when user and
    assistant take turns, the user first. *)
Definition turn (i : nat) : Role := if Nat.even i then user else assistant.

(** What an exchange of the conversation looks like: a user exchange has
    a text that is not blank and no response; an assistant exchange has
    the insight of its response as content, or no response and a content
    that is not empty. *)
Definition wellFormed (m : Message) : Prop :=
  match msg_role m, msg_response m with
  | user, None => JS.trim (msg_content m) <> ""
  | user, Some _ => False
  | assistant, Some response => msg_content m = insight response
  | assistant, None => msg_content m <> ""
  end.

(** A session with a successful analysis, shown in the chat view. *)
Definition topScore : AIResponse :=
  {| summary := "Bob leads.";
     insight := "Bob has the highest score, 20.";
     chartType := bar;
     chartData := [ <["name" := JS.VString "Alice"]> {["value" := JS.VNumber (JS.ofZ 10)]};
                    <["name" := JS.VString "Bob"]> {["value" := JS.VNumber (JS.ofZ 20)]} ];
     xAxisLabel := Some "name";
     yAxisLabel := Some "score";
     suggestion := None |}.

Definition chartSession : list Event :=
  [ Upload (Some scoresFile) "k3j9x2ab1";
    SetActiveTab TabChat;
    Send (Some "Who scored most?") 1700000001000 1700000001000;
    Settle (Returned topScore) 1700000002000 1700000002000;
    Render ].

(** A file whose second column is headed [__proto__], with a line that
    has no field for it. *)
Definition protoCSV : string := "a,__proto__" ++ nl ++ "1".

(** [r[c]?.toString() || '-'], the text the data table shows for the cell
    of [row] under [col]. *)
Definition tableCell (row : gmap string JS.Value) (col : string) : string :=
  match JS.getProperty row col with
  | JS.VUndefined | JS.VNull => "-"
  | v => if String.eqb (JS.ToString v) "" then "-" else JS.ToString v
  end.

(** [dataset.data.slice(0, 200)], the rows the data table shows, and
    whether it says that rows are left out. *)
Definition tableRows (d : Dataset) : list (gmap string JS.Value) :=
  take 200 (ds_data d).

Definition tableNotice (d : Dataset) : bool :=
  Nat.ltb 200 (List.length (ds_data d)).

Definition noDot (s : string) : bool := allChars (notChar ".") s.

(** * Properties *)

(** ** Strings *)

Section Strings.

Lemma append_cons (c : ascii) (s t : string) :
  String c s ++ t = String c (s ++ t).
Proof. reflexivity. Qed.

Lemma append_empty_r (s : string) : s ++ "" = s.
Proof.
  induction s as [|c s IH]; [reflexivity | now rewrite append_cons, IH].
Qed.

Lemma append_assoc (a b c : string) : (a ++ b) ++ c = a ++ (b ++ c).
Proof.
  induction a as [|x a IH]; [reflexivity | now rewrite !append_cons, IH].
Qed.

Lemma length_append (a b : string) :
  String.length (a ++ b) = String.length a + String.length b.
Proof.
  induction a as [|x a IH]; [reflexivity | rewrite append_cons; simpl; now rewrite IH].
Qed.

Lemma substring_whole (s t : string) :
  String.substring 0 (String.length s) (s ++ t) = s.
Proof.
  induction s as [|c s IH]; [now destruct t |].
  rewrite append_cons. simpl. now rewrite IH.
Qed.

Lemma substring_skip (a s : string) (n : nat) :
  String.substring (String.length a) n (a ++ s) = String.substring 0 n s.
Proof.
  induction a as [|c a IH]; [reflexivity | rewrite append_cons; exact IH].
Qed.

(** [line.substring(startValue, i)] is the part of the line read since
    the last separator. *)
Lemma substring_middle (a cur rest : string) :
  JS.substring (a ++ cur ++ rest) (String.length a) (String.length (a ++ cur)) = cur.
Proof.
  unfold JS.substring. rewrite length_append.
  replace (String.length a + String.length cur - String.length a)
    with (String.length cur) by lia.
  rewrite substring_skip. apply substring_whole.
Qed.

Lemma substringFrom_suffix (a cur : string) :
  JS.substringFrom (a ++ cur) (String.length a) = cur.
Proof.
  unfold JS.substringFrom. rewrite length_append.
  replace (String.length a + String.length cur - String.length a)
    with (String.length cur) by lia.
  rewrite substring_skip.
  pose proof (substring_whole cur "") as H.
  now rewrite append_empty_r in H.
Qed.

End Strings.

(** ** Field splitting *)

Section FieldSplitting.

Lemma splitFields_nonempty (inside : bool) (line : string) :
  splitFields inside line <> [].
Proof.
  destruct line as [|c rest]; simpl; [discriminate |].
  destruct (_ && _); [discriminate |].
  destruct (splitFields _ rest); discriminate.
Qed.

(** The loop invariant of [parseLine]: [a] is the part of the line before
    [startValue], [cur] the part from [startValue] to [i]. *)
Lemma parseLine_loop_spec (rest : string) :
  forall (line a cur : string) (i startValue : nat) (inQuotes : bool)
         (result : list string),
    line = a ++ cur ++ rest ->
    startValue = String.length a ->
    i = String.length (a ++ cur) ->
    exists field fields,
      splitFields inQuotes rest = field :: fields /\
      parseLine_loop line rest i startValue inQuotes result
      = (result ++ cleanField (cur ++ field) :: List.map cleanField fields)%list.
Proof.
  induction rest as [|c rest IH]; intros line a cur i sv inQ result -> -> ->.
  - exists "", []. split; [reflexivity |]. simpl.
    now rewrite !append_empty_r, substringFrom_suffix.
  - simpl. rewrite substring_middle.
    set (inQ' := if Ascii.eqb c JS.quote then negb inQ else inQ).
    destruct (Ascii.eqb c JS.comma && negb inQ') eqn:Hsep.
    + destruct (IH (a ++ cur ++ String c rest) (a ++ cur ++ String c "") ""
                   (S (String.length (a ++ cur))) (S (String.length (a ++ cur)))
                   inQ' (result ++ [cleanField cur])%list)
        as (f & fs & Hsplit & Hloop).
      * rewrite !append_assoc. reflexivity.
      * rewrite <- append_assoc, !length_append. simpl. lia.
      * rewrite append_empty_r, <- append_assoc, !length_append. simpl. lia.
      * exists "", (f :: fs). split; [now rewrite Hsplit |].
        rewrite Hloop, append_empty_r, <- app_assoc. reflexivity.
    + destruct (IH (a ++ cur ++ String c rest) a (cur ++ String c "")
                   (S (String.length (a ++ cur))) (String.length a)
                   inQ' result)
        as (f & fs & Hsplit & Hloop).
      * rewrite !append_assoc. reflexivity.
      * reflexivity.
      * rewrite <- append_assoc, !length_append. simpl. lia.
      * exists (String c f), fs. split; [now rewrite Hsplit |].
        rewrite Hloop, append_assoc. reflexivity.
Qed.

(** [parseLine] computes the fields of the specification, cleaned. *)
Lemma parseLine_splitFields (line : string) :
  parseLine line = List.map cleanField (splitFields false line).
Proof.
  destruct (parseLine_loop_spec line line "" "" 0 0 false [])
    as (f & fs & Hsplit & Hloop); try reflexivity.
  unfold parseLine. now rewrite Hloop, Hsplit.
Qed.

Lemma parseLine_length (line : string) :
  List.length (parseLine line) = List.length (splitFields false line).
Proof. now rewrite parseLine_splitFields, length_map. Qed.

Lemma filter_shift_length (f : nat -> bool) (l : list nat) :
  List.length (List.filter f (List.map S l))
  = List.length (List.filter (fun i => f (S i)) l).
Proof.
  induction l as [|x l IH]; simpl; [reflexivity |].
  destruct (f (S x)); simpl; now rewrite IH.
Qed.

Lemma separatorAt_shift (inside : bool) (c : ascii) (rest : string) (i : nat) :
  separatorAt inside (String c rest) (S i)
  = separatorAt (if Ascii.eqb c JS.quote then negb inside else inside) rest i.
Proof.
  unfold separatorAt. simpl. destruct (String.get i rest) as [c'|]; [| reflexivity].
  f_equal. destruct (Ascii.eqb c JS.quote); simpl; [| reflexivity].
  rewrite Nat.odd_succ, <- Nat.negb_odd.
  now destruct inside, (Nat.odd (quotesBefore rest i)).
Qed.

(** One field more than there are commas outside quotes. *)
Lemma splitFields_length (line : string) (inside : bool) :
  List.length (splitFields inside line)
  = S (List.length (List.filter (separatorAt inside line)
                      (seq 0 (String.length line)))).
Proof.
  revert inside. induction line as [|c rest IH]; intros inside; [reflexivity |].
  cbn [String.length seq List.filter]. rewrite <- seq_shift.
  set (inside' := if Ascii.eqb c JS.quote then negb inside else inside).
  assert (List.length (List.filter (separatorAt inside (String c rest))
                         (List.map S (seq 0 (String.length rest))))
          = List.length (List.filter (separatorAt inside' rest)
                           (seq 0 (String.length rest)))) as Hrest.
  { rewrite filter_shift_length. f_equal. apply List.filter_ext.
    intros i. apply separatorAt_shift. }
  assert (separatorAt inside (String c rest) 0
          = Ascii.eqb c JS.comma && negb inside') as Hhead.
  { unfold separatorAt, inside'. simpl.
    destruct (Ascii.eqb_spec c JS.comma) as [-> | _]; [| reflexivity].
    simpl. now destruct inside. }
  rewrite Hhead. simpl. fold inside'.
  destruct (Ascii.eqb c JS.comma && negb inside'); simpl.
  - now rewrite Hrest, IH.
  - rewrite Hrest, <- IH. pose proof (splitFields_nonempty inside' rest).
    now destruct (splitFields inside' rest).
Qed.

Lemma parseLine_count (line : string) :
  List.length (parseLine line) = S (List.length (separators line)).
Proof. rewrite parseLine_length. apply splitFields_length. Qed.

End FieldSplitting.

(** C7. For every line, [parseLine] breaks the line exactly at the commas
    met while the quote-toggle flag is false, the commas with an even
    number of double quotes before them: its fields are the fields of the
    specification's scan, each with one leading and one trailing quote
    stripped and then trimmed, one more than there are such commas.  So
    the line ["a,b",2] splits into the two fields [a,b] and [2], at its
    second comma only. *)
Theorem parseLine_splits_at_unquoted_commas :
  (forall line : string,
      parseLine line = List.map cleanField (splitFields false line) /\
      List.length (parseLine line) = S (List.length (separators line))) /\
  separators quotedLine = [5] /\
  splitFields false quotedLine = [quoted "a,b"; "2"] /\
  parseLine quotedLine = ["a,b"; "2"].
Proof.
  split; [| repeat split; reflexivity].
  intros line. split; [apply parseLine_splitFields | apply parseLine_count].
Qed.

(** ** Rows *)

Section Rows.

Implicit Types (obj : gmap string JS.Value) (hs values : list string).

Lemma setProperty_lookup_eq obj (key : string) (v : JS.Value) :
  key <> "__proto__" -> JS.setProperty obj key v !! key = Some v.
Proof.
  intros Hkey. unfold JS.setProperty.
  destruct (String.eqb_spec key "__proto__"); [contradiction |].
  apply lookup_insert_eq.
Qed.

Lemma setProperty_lookup_ne obj (key key' : string) (v : JS.Value) :
  key <> key' -> JS.setProperty obj key v !! key' = obj !! key'.
Proof.
  intros Hne. unfold JS.setProperty.
  destruct (String.eqb key "__proto__"); [reflexivity |].
  now apply lookup_insert_ne.
Qed.

Lemma setProperty_lookup_Some obj (key key' : string) (v w : JS.Value) :
  JS.setProperty obj key v !! key' = Some w ->
  obj !! key' = Some w \/ (key = key' /\ v = w).
Proof.
  destruct (decide (key = key')) as [<- | Hne].
  - unfold JS.setProperty. destruct (String.eqb key "__proto__"); [now left |].
    rewrite lookup_insert_eq. intros [= ->]. now right.
  - rewrite setProperty_lookup_ne by assumption. now left.
Qed.

Lemma lookup_map {A B : Type} (f : A -> B) (l : list A) (i : nat) :
  List.map f l !! i = f <$> (l !! i).
Proof.
  revert i. induction l as [|x l IH]; intros [|i]; simpl; auto.
Qed.

Lemma forEach_header_app hs hs' (i : nat) values obj :
  forEach_header (hs ++ hs') i values obj
  = forEach_header hs' (i + List.length hs) values (forEach_header hs i values obj).
Proof.
  revert i obj. induction hs as [|h hs IH]; intros i obj; simpl.
  - now rewrite Nat.add_0_r.
  - rewrite IH. now replace (S i + List.length hs) with (i + S (List.length hs)) by lia.
Qed.

(** Every key of a row is a header. *)
Lemma forEach_header_keys hs (i : nat) values obj (key : string) :
  is_Some (forEach_header hs i values obj !! key) ->
  is_Some (obj !! key) \/ key ∈ hs.
Proof.
  revert i obj. induction hs as [|h hs IH]; intros i obj; simpl; [now left |].
  intros [Hobj | Hin]%IH; [| right; now apply list_elem_of_further].
  destruct Hobj as [w [Hold | [-> _]]%setProperty_lookup_Some].
  - left. now exists w.
  - right. apply list_elem_of_here.
Qed.

(** Where a value of a row comes from. *)
Lemma forEach_header_values hs (i : nat) values obj (key : string) (v : JS.Value) :
  forEach_header hs i values obj !! key = Some v ->
  obj !! key = Some v \/
  exists j : nat, hs !! j = Some key /\ v = cellValue (values !! (i + j)).
Proof.
  revert i obj. induction hs as [|h hs IH]; intros i obj; simpl; [now left |].
  intros [Hobj | (j & Hj & ->)]%IH.
  - apply setProperty_lookup_Some in Hobj as [Hold | [-> <-]]; [now left |].
    right. exists 0. now rewrite Nat.add_0_r.
  - right. exists (S j). split; [exact Hj |].
    now replace (i + S j) with (S i + j) by lia.
Qed.

(** From the end of the field list on, every header is set to
    [undefined], and stays so. *)
Lemma forEach_header_missing hs (i : nat) values obj (h : string) :
  List.length values <= i ->
  h <> "__proto__" ->
  h ∈ hs \/ obj !! h = Some JS.VUndefined ->
  forEach_header hs i values obj !! h = Some JS.VUndefined.
Proof.
  intros Hlen Hproto. revert i obj Hlen.
  induction hs as [|x hs IH]; intros i obj Hlen Hh; simpl.
  - destruct Hh as [Hin | Hobj]; [| exact Hobj]. now apply elem_of_nil in Hin.
  - apply IH; [lia |].
    rewrite (lookup_ge_None_2 values i) by exact Hlen. simpl.
    destruct (decide (x = h)) as [-> | Hne].
    + right. now apply setProperty_lookup_eq.
    + destruct Hh as [Hin | Hobj].
      * left. apply elem_of_cons in Hin as [-> | Hin]; [congruence | exact Hin].
      * right. now rewrite setProperty_lookup_ne.
Qed.

Lemma cellValue_kind (val : option string) :
  match cellValue val with
  | JS.VUndefined => val = None
  | JS.VNumber x => exists s, val = Some s /\ x = JS.Number (JS.removeCommas s)
  | JS.VString s => val = Some s
  | JS.VNull | JS.VObject _ => False
  end.
Proof.
  destruct val as [s|]; simpl; [| reflexivity].
  destruct (_ && _); [| reflexivity]. now exists s.
Qed.

(** The row of a line: the columns from the field count on, and the kinds
    of value a row holds. *)
Lemma parseRow_short hs (line : string) :
  (forall (i : nat) (h : string),
      hs !! i = Some h -> List.length (parseLine line) <= i ->
      h <> "__proto__" -> parseRow hs line !! h = Some JS.VUndefined) /\
  (forall (key : string) (v : JS.Value),
      parseRow hs line !! key = Some v ->
      (v = JS.VUndefined /\
       exists i : nat, hs !! i = Some key /\ List.length (parseLine line) <= i) \/
      (exists x, v = JS.VNumber x) \/ (exists s, v = JS.VString s)).
Proof.
  unfold parseRow. split.
  - intros i h Hi Hlen Hproto.
    rewrite <- (take_drop i hs), forEach_header_app.
    apply forEach_header_missing; [| exact Hproto |].
    { apply lookup_lt_Some in Hi. rewrite length_take. lia. }
    left. apply list_elem_of_lookup. exists 0.
    now rewrite lookup_drop, Nat.add_0_r.
  - intros key v [Hempty | (j & Hj & ->)]%forEach_header_values.
    + now rewrite lookup_empty in Hempty.
    + simpl. pose proof (cellValue_kind (parseLine line !! j)) as Hkind.
      destruct (cellValue (parseLine line !! j)) as [| |x|s|t]; try contradiction.
      * left. split; [reflexivity |]. exists j. split; [exact Hj |].
        now apply lookup_ge_None_1.
      * right. left. now exists x.
      * right. right. now exists s.
Qed.

Lemma parseCSV_lines (text first : string) (rest : list string) :
  nonBlankLines text = first :: rest ->
  headers (parseCSV text) = parseLine first /\
  rows (parseCSV text) = List.map (parseRow (parseLine first)) rest.
Proof. unfold parseCSV. now intros ->. Qed.

End Rows.

(** C1 (as the program has it). For every CSV input line whose field count
    is smaller than the number of headers, the row built by [parseCSV] has
    every column from the field count on present as a key whose value is
    [undefined] (a header spelled [__proto__] never becomes a key); a value
    of the row is a number, a string, or the [undefined] of such a column,
    and never [null]. *)
Theorem short_row_columns_are_undefined
    (text first : string) (rest : list string) (n : nat) (line : string) :
  nonBlankLines text = first :: rest ->
  rest !! n = Some line ->
  List.length (parseLine line) < List.length (headers (parseCSV text)) ->
  exists row : gmap string JS.Value,
    rows (parseCSV text) !! n = Some row /\
    is_Some (headers (parseCSV text) !! List.length (parseLine line)) /\
    (forall (i : nat) (h : string),
        headers (parseCSV text) !! i = Some h ->
        List.length (parseLine line) <= i ->
        h <> "__proto__" -> row !! h = Some JS.VUndefined) /\
    (forall (key : string) (v : JS.Value),
        row !! key = Some v ->
        (v = JS.VUndefined /\
         exists i : nat, headers (parseCSV text) !! i = Some key /\
                         List.length (parseLine line) <= i) \/
        (exists x, v = JS.VNumber x) \/ (exists s, v = JS.VString s)).
Proof.
  intros Hlines Hline Hshort.
  destruct (parseCSV_lines text first rest Hlines) as [Hh Hr].
  rewrite Hh in *. rewrite Hr.
  exists (parseRow (parseLine first) line).
  split; [now rewrite lookup_map, Hline |].
  split; [now apply lookup_lt_is_Some_2 |].
  apply parseRow_short.
Qed.

Lemma short_row_columns_are_undefined_witness :
  nonBlankLines shortCSV = ["a,b"; "1"] /\
  List.length (parseLine "1") < List.length (headers (parseCSV shortCSV)) /\
  exists row : gmap string JS.Value,
    rows (parseCSV shortCSV) !! 0 = Some row /\
    is_Some (headers (parseCSV shortCSV) !! List.length (parseLine "1")) /\
    (forall (i : nat) (h : string),
        headers (parseCSV shortCSV) !! i = Some h ->
        List.length (parseLine "1") <= i ->
        h <> "__proto__" -> row !! h = Some JS.VUndefined) /\
    (forall (key : string) (v : JS.Value),
        row !! key = Some v ->
        (v = JS.VUndefined /\
         exists i : nat, headers (parseCSV shortCSV) !! i = Some key /\
                         List.length (parseLine "1") <= i) \/
        (exists x, v = JS.VNumber x) \/ (exists s, v = JS.VString s)).
Proof.
  split; [reflexivity |].
  split; [vm_compute; lia |].
  apply (short_row_columns_are_undefined shortCSV "a,b" ["1"] 0 "1");
    [reflexivity | reflexivity | vm_compute; lia].
Defined.

(** C1 (as stated) fails: in the row of the line [1] under the headers
    [a,b], the column [b] is a key of the row, and its value is
    [undefined]. *)
Lemma short_row_column_is_not_absent : ~ shortRowsLeaveColumnsAbsent shortCSV.
Proof.
  intros Hclaim.
  destruct (Hclaim "a,b" ["1"] 0 "1" (parseRow ["a"; "b"] "1")) as [Habsent _];
    [reflexivity | reflexivity | reflexivity | vm_compute; lia |].
  specialize (Habsent 1 "b" eq_refl). vm_compute in Habsent.
  specialize (Habsent (le_n 1)). discriminate Habsent.
Qed.

(** ** Lines *)

Section Lines.

Context {A : Type} (p : A -> bool).

(** The head of a filtered list is the first element that passes. *)
Lemma filter_head (l : list A) (x : A) (xs : list A) :
  List.filter p l = x :: xs ->
  exists i : nat,
    l !! i = Some x /\ p x = true /\
    forall (j : nat) (y : A), j < i -> l !! j = Some y -> p y = false.
Proof.
  induction l as [|a l IH]; simpl; [discriminate |].
  destruct (p a) eqn:Ha.
  - intros [= -> _]. exists 0. repeat split; [exact Ha |]. intros j y Hj. lia.
  - intros (i & Hi & Hx & Hbefore)%IH. exists (S i). repeat split; auto.
    intros [|j] y Hj; simpl; [now intros [= <-] | apply Hbefore; lia].
Qed.

Lemma filter_nonempty (l : list A) (x : A) :
  x ∈ l -> p x = true -> List.filter p l <> [].
Proof.
  intros Hin Hx Hnil.
  assert (In x (List.filter p l)) as Hf
      by (apply filter_In; split; [now apply list_elem_of_In | exact Hx]).
  now rewrite Hnil in Hf.
Qed.

End Lines.

Lemma nonBlank_spec (l : string) :
  negb (String.eqb (JS.trim l) "") = true <-> JS.trim l <> "".
Proof.
  destruct (String.eqb_spec (JS.trim l) ""); simpl; split; congruence.
Qed.

(** C6. For every CSV text with at least one non-blank line, the headers
    [parseCSV] returns are as many as the fields of the first non-blank
    line, and every key of every returned row is one of the headers: a
    field beyond the header count gives no key. *)
Theorem headers_length_and_row_keys (text : string) :
  (exists l : string, l ∈ JS.split_lines text /\ JS.trim l <> "") ->
  exists first : string,
    firstNonBlank first (JS.split_lines text) /\
    List.length (headers (parseCSV text)) = List.length (splitFields false first) /\
    List.length (headers (parseCSV text)) = S (List.length (separators first)) /\
    forall (row : gmap string JS.Value) (key : string),
      row ∈ rows (parseCSV text) ->
      is_Some (row !! key) -> key ∈ headers (parseCSV text).
Proof.
  intros (l & Hin & Hl).
  destruct (nonBlankLines text) as [|first rest] eqn:Hlines.
  { exfalso. revert Hlines. unfold nonBlankLines.
    apply (filter_nonempty _ _ l Hin). now apply nonBlank_spec. }
  destruct (parseCSV_lines text first rest Hlines) as [Hh Hr].
  exists first. split; [| split; [| split]].
  - destruct (filter_head _ _ _ _ Hlines) as (i & Hi & Hfirst & Hbefore).
    exists i. split; [exact Hi |]. split; [now apply nonBlank_spec |].
    intros j y Hj Hy. specialize (Hbefore j y Hj Hy).
    destruct (String.eqb_spec (JS.trim y) ""); [assumption | discriminate].
  - rewrite Hh. apply parseLine_length.
  - rewrite Hh. apply parseLine_count.
  - intros row key Hrow Hkey. rewrite Hh. rewrite Hr in Hrow.
    apply list_elem_of_In, in_map_iff in Hrow as (line & <- & _).
    apply forEach_header_keys in Hkey as [Hempty | Hkey]; [| exact Hkey].
    rewrite lookup_empty in Hempty. now destruct Hempty.
Qed.

Lemma headers_length_and_row_keys_witness :
  (exists l : string, l ∈ JS.split_lines sampleCSV /\ JS.trim l <> "") /\
  exists first : string,
    firstNonBlank first (JS.split_lines sampleCSV) /\
    List.length (headers (parseCSV sampleCSV)) = List.length (splitFields false first) /\
    List.length (headers (parseCSV sampleCSV)) = S (List.length (separators first)) /\
    forall (row : gmap string JS.Value) (key : string),
      row ∈ rows (parseCSV sampleCSV) ->
      is_Some (row !! key) -> key ∈ headers (parseCSV sampleCSV).
Proof.
  assert (exists l : string, l ∈ JS.split_lines sampleCSV /\ JS.trim l <> "") as H.
  { exists "name,score". split; [apply list_elem_of_here | discriminate]. }
  split; [exact H | exact (headers_length_and_row_keys sampleCSV H)].
Defined.

(** ** Coercion of a field *)

Section Coercion.

Lemma cellValue_number (val : string) :
  val <> "" ->
  JS.isNaN (JS.Number (JS.removeCommas val)) = false ->
  cellValue (Some val) = JS.VNumber (JS.Number (JS.removeCommas val)).
Proof.
  intros Hval Hnum. simpl.
  destruct (String.eqb_spec val ""); [contradiction |].
  now rewrite Hnum.
Qed.

Lemma cellValue_string (val : string) :
  val = "" \/ JS.isNaN (JS.Number (JS.removeCommas val)) = true ->
  cellValue (Some val) = JS.VString val.
Proof.
  intros [-> | Hnan]; simpl; [reflexivity |].
  rewrite Hnan. now rewrite andb_false_r.
Qed.

Lemma not_blank_not_empty (val : string) :
  JS.trim (JS.removeCommas val) <> "" -> JS.removeCommas val <> "" /\ val <> "".
Proof.
  intros Hblank. split; [intros Hempty | intros ->]; apply Hblank;
    [now rewrite Hempty | reflexivity].
Qed.

End Coercion.

(** C2 (as the program has it). For every field string that is empty or
    whose comma-stripped form is not blank, [parseCSV] coerces the field to
    a number if and only if, after stripping comma separators, it is
    non-empty and converts to a Number other than [NaN] (an infinity is
    such a number), and the number is that conversion; in every other case
    the row value is the original trimmed field string, not the
    comma-stripped one. *)
Theorem field_is_number_iff_not_NaN (val : string) :
  val = "" \/ JS.trim (JS.removeCommas val) <> "" ->
  ((exists x, cellValue (Some val) = JS.VNumber x) <->
   (JS.removeCommas val <> "" /\
    JS.isNaN (JS.Number (JS.removeCommas val)) = false)) /\
  ((exists x, cellValue (Some val) = JS.VNumber x) ->
   cellValue (Some val) = JS.VNumber (JS.Number (JS.removeCommas val))) /\
  ((~ exists x, cellValue (Some val) = JS.VNumber x) ->
   cellValue (Some val) = JS.VString val).
Proof.
  intros [-> | [Hstripped Hval]%not_blank_not_empty].
  - simpl. split; [split |]; [now intros [x [=]] | now intros [Hne _] |].
    split; [now intros [x [=]] | reflexivity].
  - destruct (JS.isNaN (JS.Number (JS.removeCommas val))) eqn:Hnan.
    + rewrite (cellValue_string val) by now right.
      split; [split |]; [now intros [x [=]] | now intros [_ [=]] |].
      split; [now intros [x [=]] | reflexivity].
    + rewrite (cellValue_number val Hval Hnan).
      repeat split; eauto. intros Hnot. exfalso. eauto.
Qed.

Lemma field_is_number_iff_not_NaN_witness :
  ("1,234" = "" \/ JS.trim (JS.removeCommas "1,234") <> "") /\
  ((exists x, cellValue (Some "1,234") = JS.VNumber x) <->
   (JS.removeCommas "1,234" <> "" /\
    JS.isNaN (JS.Number (JS.removeCommas "1,234")) = false)) /\
  ((exists x, cellValue (Some "1,234") = JS.VNumber x) ->
   cellValue (Some "1,234") = JS.VNumber (JS.Number (JS.removeCommas "1,234"))) /\
  ((~ exists x, cellValue (Some "1,234") = JS.VNumber x) ->
   cellValue (Some "1,234") = JS.VString "1,234").
Proof.
  assert ("1,234" = "" \/ JS.trim (JS.removeCommas "1,234") <> "") as H
      by (right; vm_compute; discriminate).
  split; [exact H | exact (field_is_number_iff_not_NaN "1,234" H)].
Defined.

(** C2 (as stated) fails: the field [Infinity] is coerced to a number,
    and that number is not finite. *)
Lemma infinite_field_is_coerced : ~ coercedIffFinite "Infinity".
Proof.
  intros [[Hfinite _] _].
  destruct Hfinite as [_ Hfinite]; [now exists JS.Infinity |].
  vm_compute in Hfinite. discriminate Hfinite.
Qed.

(** A field of commas only is not empty, so it is coerced as well, to the
    number that the empty text converts to. *)
Example comma_only_field : cellValue (Some ",") = JS.VNumber (S754_zero false).
Proof. reflexivity. Qed.

(** ** Numbers written with digits *)

Section Digits.

Lemma digit_cases (c : ascii) (d : N) :
  JS.digitValue 10 c = Some d -> In c decimalDigits.
Proof.
  destruct c as [[] [] [] [] [] [] [] []]; vm_compute; intros H;
    solve [discriminate H | tauto].
Qed.

Ltac each_digit H :=
  apply digit_cases in H; simpl in H;
  repeat (destruct H as [<- | H]; [reflexivity |]); contradiction.

Lemma digit_not_blank (c : ascii) (d : N) :
  JS.digitValue 10 c = Some d -> JS.isWhiteSpace c = false.
Proof. intros H. each_digit H. Qed.

Lemma digit_not_sign (c : ascii) (d : N) :
  JS.digitValue 10 c = Some d ->
  Ascii.eqb c "+" = false /\ Ascii.eqb c "-" = false /\ Ascii.eqb c "I" = false.
Proof. intros H. repeat split; each_digit H. Qed.

Lemma digit_not_prefix (c : ascii) (d : N) :
  JS.digitValue 10 c = Some d ->
  Ascii.eqb c "x" || Ascii.eqb c "X" = false /\
  Ascii.eqb c "o" || Ascii.eqb c "O" = false /\
  Ascii.eqb c "b" || Ascii.eqb c "B" = false.
Proof. intros H. repeat split; each_digit H. Qed.

Lemma isDigit_value (c : ascii) :
  isDigit c = true -> exists d, JS.digitValue 10 c = Some d.
Proof. intros H%bool_decide_eq_true. exact H. Qed.

Lemma trimEnd_digits (s : string) :
  allChars isDigit s = true -> JS.trimEnd s = s.
Proof.
  induction s as [|c s IH]; simpl; [reflexivity |].
  intros [[d Hc]%isDigit_value Hs]%andb_prop. rewrite (IH Hs).
  destruct s; [| reflexivity]. now rewrite (digit_not_blank c d Hc).
Qed.

Lemma trim_digits (s : string) : allChars isDigit s = true -> JS.trim s = s.
Proof.
  intros H. unfold JS.trim.
  replace (JS.trimStart s) with s; [now apply trimEnd_digits |].
  destruct s as [|c s]; simpl; [reflexivity |].
  simpl in H. apply andb_prop in H as [[d Hc]%isDigit_value _].
  now rewrite (digit_not_blank c d Hc).
Qed.

Lemma readDigits_digits (s : string) (acc : N) (count : nat) :
  allChars isDigit s = true ->
  JS.readDigits 10 s acc count
  = (digitsValue acc s, count + String.length s, EmptyString).
Proof.
  revert acc count. induction s as [|c s IH]; intros acc count; simpl.
  - intros _. now rewrite Nat.add_0_r.
  - intros [[d Hc]%isDigit_value Hs]%andb_prop. rewrite Hc, (IH _ _ Hs).
    now replace (S count + String.length s) with (count + S (String.length s)) by lia.
Qed.

Lemma unsignedDecimal_digits (s : string) :
  s <> "" -> allChars isDigit s = true ->
  JS.unsignedDecimal false s = JS.ofDecimal false (digitsValue 0 s) 0.
Proof.
  intros Hne Hs. unfold JS.unsignedDecimal, JS.readUnsignedDecimal.
  rewrite (readDigits_digits s 0 0 Hs). simpl Nat.add.
  destruct s as [|c s]; [contradiction |].
  simpl in Hs. apply andb_prop in Hs as [[d Hc]%isDigit_value _].
  destruct (digit_not_sign c d Hc) as (_ & _ & HI).
  cbn [String.eqb]. rewrite HI. reflexivity.
Qed.

Lemma Number_digits (s : string) :
  s <> "" -> allChars isDigit s = true ->
  JS.Number s = JS.ofDecimal false (digitsValue 0 s) 0.
Proof.
  intros Hne Hs. unfold JS.Number. rewrite (trim_digits s Hs).
  rewrite <- (unsignedDecimal_digits s Hne Hs).
  destruct s as [|c s]; [contradiction |].
  pose proof Hs as Hs'. simpl in Hs'.
  apply andb_prop in Hs' as [[d Hc]%isDigit_value Hrest].
  destruct (digit_not_sign c d Hc) as (Hplus & Hminus & _).
  unfold JS.strNumericLiteral. rewrite Hplus, Hminus.
  destruct (Ascii.eqb c "0"); [| reflexivity].
  destruct s as [|p s]; [reflexivity |].
  simpl in Hrest. apply andb_prop in Hrest as [[d' Hp]%isDigit_value _].
  destruct (digit_not_prefix p d' Hp) as (-> & -> & ->). reflexivity.
Qed.

Lemma removeCommas_digits (val : string) :
  allChars digitOrComma val = true ->
  allChars isDigit (JS.removeCommas val) = true /\
  forall acc, digitsValue acc (JS.removeCommas val) = digitsValue acc val.
Proof.
  induction val as [|c val IH]; simpl; [now split |].
  intros [Hc Hval]%andb_prop. destruct (IH Hval) as [Hall Hvalue].
  unfold digitOrComma in Hc. destruct (Ascii.eqb_spec c JS.comma) as [-> | Hne].
  - split; [exact Hall | intros acc; now rewrite Hvalue].
  - simpl in Hc. simpl. rewrite Hc, Hall. split; [reflexivity |].
    intros acc. now destruct (JS.digitValue 10 c); rewrite Hvalue.
Qed.

End Digits.

(** ** Rounding never yields [NaN] *)

Section Rounding.

Lemma shr_1_nonneg (mrs : shr_record) :
  (0 <= shr_m mrs)%Z -> (0 <= shr_m (shr_1 mrs))%Z.
Proof.
  destruct mrs as [m r s]. simpl.
  destruct m as [|[p|p|]|p]; simpl; lia.
Qed.

Lemma iter_shr_1_nonneg (p : positive) (mrs : shr_record) :
  (0 <= shr_m mrs)%Z -> (0 <= shr_m (SpecFloat.iter_pos shr_1 p mrs))%Z.
Proof.
  revert mrs. induction p as [p IH|p IH|]; intros mrs H; simpl.
  - apply IH, IH, shr_1_nonneg, H.
  - apply IH, IH, H.
  - apply shr_1_nonneg, H.
Qed.

Lemma shr_fexp_nonneg (m e : Z) (l : location) :
  (0 <= m)%Z -> (0 <= shr_m (fst (shr_fexp JS.prec JS.emax m e l)))%Z.
Proof.
  intros H. unfold shr_fexp, shr.
  assert (0 <= shr_m (shr_record_of_loc m l))%Z as H0
      by (destruct l as [|[]]; exact H).
  destruct (_ - e)%Z; simpl; [exact H0 | | exact H0].
  now apply iter_shr_1_nonneg.
Qed.

Lemma round_nearest_even_nonneg (m : Z) (l : location) :
  (0 <= m)%Z -> (0 <= round_nearest_even m l)%Z.
Proof. destruct l as [|[]]; simpl; try lia. destruct (Z.even m); lia. Qed.

Lemma binary_round_aux_not_NaN (sx : bool) (m e : Z) (l : location) :
  (0 <= m)%Z -> JS.isNaN (binary_round_aux JS.prec JS.emax sx m e l) = false.
Proof.
  intros H. unfold binary_round_aux.
  pose proof (shr_fexp_nonneg m e l H) as H1.
  destruct (shr_fexp JS.prec JS.emax m e l) as [mrs' e']. simpl in H1.
  pose proof (shr_fexp_nonneg _ e' loc_Exact
                (round_nearest_even_nonneg _ (loc_of_shr_record mrs') H1)) as H2.
  destruct (shr_fexp JS.prec JS.emax _ e' loc_Exact) as [mrs'' e'']. simpl in H2.
  destruct (shr_m mrs'') as [|q|q]; [reflexivity | | lia].
  now destruct (Z.leb e'' _).
Qed.

Lemma ofDecimal_integer_not_NaN (m : N) :
  JS.isNaN (JS.ofDecimal false m 0) = false.
Proof.
  destruct m as [|p]; [reflexivity |].
  unfold JS.ofDecimal. simpl Z.leb. cbv iota. unfold binary_round.
  destruct (shl_align _ _ _) as [mz ez].
  now apply binary_round_aux_not_NaN.
Qed.

End Rounding.

(** C9. A field written with decimal digits and comma separators is
    coerced to the number its digits write, so the field [1,234] becomes
    the number 1234; the empty field stays the empty string and is not a
    number, in particular not [0]. *)
Theorem thousands_separators_and_empty_field :
  (forall val : string,
      allChars digitOrComma val = true -> JS.removeCommas val <> "" ->
      cellValue (Some val) = JS.VNumber (JS.ofDecimal false (digitsValue 0 val) 0)) /\
  cellValue (Some "1,234") = JS.VNumber (JS.ofZ 1234) /\
  cellValue (Some "") = JS.VString "" /\
  parseRow ["amount"; "note"] (quoted "1,234" ++ ",")
  = <["amount" := JS.VNumber (JS.ofZ 1234)]> {["note" := JS.VString ""]}.
Proof.
  split; [| repeat split; reflexivity].
  intros val Hval Hne.
  destruct (removeCommas_digits val Hval) as [Hdigits Hvalue].
  assert (JS.Number (JS.removeCommas val) = JS.ofDecimal false (digitsValue 0 val) 0)
    as Hnum by (now rewrite Number_digits, Hvalue).
  rewrite <- Hnum. apply cellValue_number.
  - now intros ->.
  - rewrite Hnum. apply ofDecimal_integer_not_NaN.
Qed.

Lemma thousands_separators_and_empty_field_witness :
  allChars digitOrComma "12,345,678" = true /\
  JS.removeCommas "12,345,678" <> "" /\
  cellValue (Some "12,345,678") = JS.VNumber (JS.ofZ 12345678).
Proof.
  split; [reflexivity |]. split; [discriminate |].
  exact (proj1 thousands_separators_and_empty_field "12,345,678"
               eq_refl ltac:(discriminate)).
Defined.

(** ** The round-trip scenario *)

(** C5. Ingesting the text [name,score], [Alice,10], [Bob,20] (each line
    ended by a line feed) yields the columns [name] and [score] and the
    two rows [{name: "Alice", score: 10}] and [{name: "Bob", score: 20}];
    exporting that dataset to CSV and ingesting the exported text yields
    the same columns and the same two rows. *)
Theorem sample_round_trip :
  let parsed := parseCSV sampleCSV in
  headers parsed = ["name"; "score"] /\
  rows parsed =
    [ <["name" := JS.VString "Alice"]> {["score" := JS.VNumber (JS.ofZ 10)]};
      <["name" := JS.VString "Bob"]> {["score" := JS.VNumber (JS.ofZ 20)]} ] /\
  forall name id : string,
    let exported := csvContent (sampleDataset parsed name id) in
    exported = "name,score" ++ nl ++ quoted "Alice" ++ "," ++ quoted "10" ++ nl
               ++ quoted "Bob" ++ "," ++ quoted "20" /\
    headers (parseCSV exported) = headers parsed /\
    rows (parseCSV exported) = rows parsed.
Proof.
  split; [vm_compute; reflexivity |]. split; [vm_compute; reflexivity |].
  intros name id exported.
  assert (exported = "name,score" ++ nl ++ quoted "Alice" ++ "," ++ quoted "10" ++ nl
                     ++ quoted "Bob" ++ "," ++ quoted "20") as ->
      by (vm_compute; reflexivity).
  split; [reflexivity |]. split; vm_compute; reflexivity.
Qed.

(** ** Submitting a query *)

Section Submission.

Lemma rethrown_nonempty (message : string) : rethrown message <> "".
Proof.
  unfold rethrown. destruct (String.eqb_spec message ""); [discriminate | assumption].
Qed.

Lemma analyzeData_message (query : string) (d : Dataset)
    (history : list HistoryEntry) (outcome : TryOutcome) (message : string) :
  analyzeData query d history outcome = inr message -> message <> "".
Proof.
  destruct outcome as [parsed| |m]; simpl; [discriminate | |];
    intros [= <-]; apply rethrown_nonempty.
Qed.

(** The guard of [handleSendMessage], spelled out. *)
Lemma handleSendMessage_rejected (st : AppState) (textOverride : option string)
    (now date : N) :
  loading st = true \/
  JS.trim (queryOf textOverride (input st)) = "" \/
  dataset st = None ->
  handleSendMessage textOverride now date st = (st, None).
Proof.
  unfold handleSendMessage. intros [Hl | [Hq | Hd]].
  - rewrite Hl, orb_true_r. now destruct (dataset st).
  - rewrite Hq. now destruct (dataset st).
  - now rewrite Hd.
Qed.

Lemma handleSendMessage_accepted (st : AppState) (d : Dataset)
    (textOverride : option string) (now date : N) :
  dataset st = Some d ->
  JS.trim (queryOf textOverride (input st)) <> "" ->
  loading st = false ->
  handleSendMessage textOverride now date st
  = ({| activeTab := activeTab st; dataset := dataset st;
        messages := messages st ++
          [ {| msg_id := JS.digitsOfN now; msg_role := user;
               msg_content := queryOf textOverride (input st);
               msg_response := None; msg_timestamp := date |} ];
        input := ""; loading := true; chartRefs := chartRefs st |},
     Some {| call_query := queryOf textOverride (input st); call_dataset := d;
             call_history := historyOf (messages st) |}).
Proof.
  intros Hd Hq Hl. unfold handleSendMessage. rewrite Hd, Hl.
  destruct (String.eqb_spec (JS.trim (queryOf textOverride (input st))) "");
    [contradiction | reflexivity].
Qed.

(** A call is started exactly by an accepted submission. *)
Lemma handleSendMessage_call (st st' : AppState) (textOverride : option string)
    (now date : N) (call : AnalyzeCall) :
  handleSendMessage textOverride now date st = (st', Some call) ->
  dataset st = Some (call_dataset call) /\
  JS.trim (queryOf textOverride (input st)) <> "" /\
  loading st = false.
Proof.
  unfold handleSendMessage. destruct (dataset st) as [d|]; [| discriminate].
  destruct (String.eqb_spec (JS.trim (queryOf textOverride (input st))) "");
    [discriminate |].
  destruct (loading st); [discriminate |]. simpl. intros [= <- <-]. auto.
Qed.

End Submission.

(** C3. For every accepted submission (the text is not blank, a dataset is
    loaded, no submission is in flight), [handleSendMessage] appends one
    user exchange and sets the in-flight flag; when [analyzeData] settles
    it appends one assistant exchange after it.  On success that exchange
    carries the response and its content is the response's insight; on
    failure it carries no response and its content is the error's message,
    which is not empty.  In both cases the in-flight flag is cleared. *)
Theorem accepted_submission_appends_user_then_assistant
    (st : AppState) (d : Dataset) (textOverride : option string)
    (now date now' date' : N) (outcome : TryOutcome) :
  dataset st = Some d ->
  JS.trim (queryOf textOverride (input st)) <> "" ->
  loading st = false ->
  exists (st1 : AppState) (call : AnalyzeCall) (userMsg reply : Message),
    handleSendMessage textOverride now date st = (st1, Some call) /\
    messages st1 = (messages st ++ [userMsg])%list /\
    loading st1 = true /\
    let result :=
      analyzeData (call_query call) (call_dataset call) (call_history call) outcome in
    let st2 := handleSendMessage_settled result now' date' st1 in
    messages st2 = (messages st ++ [userMsg; reply])%list /\
    loading st2 = false /\
    msg_role userMsg = user /\
    msg_content userMsg = queryOf textOverride (input st) /\
    msg_response userMsg = None /\
    msg_role reply = assistant /\
    match result with
    | inl response =>
        msg_response reply = Some response /\ msg_content reply = insight response
    | inr message =>
        msg_response reply = None /\ msg_content reply = message /\ message <> ""
    end.
Proof.
  intros Hd Hq Hl.
  rewrite (handleSendMessage_accepted st d textOverride now date Hd Hq Hl).
  set (query := queryOf textOverride (input st)).
  set (userMsg := {| msg_id := JS.digitsOfN now; msg_role := user;
                     msg_content := query; msg_response := None;
                     msg_timestamp := date |}).
  set (call := {| call_query := query; call_dataset := d;
                  call_history := historyOf (messages st) |}).
  pose proof (analyzeData_message query d (historyOf (messages st)) outcome) as Hmsg.
  eexists _, call, userMsg.
  destruct (analyzeData query d (historyOf (messages st)) outcome)
    as [response | message] eqn:Hresult.
  - eexists. split; [reflexivity |]. cbn [call_query call_dataset call_history call].
    rewrite Hresult. simpl. rewrite <- app_assoc. simpl. repeat split; reflexivity.
  - eexists. split; [reflexivity |]. cbn [call_query call_dataset call_history call].
    rewrite Hresult. simpl. rewrite <- app_assoc. simpl.
    repeat split; try reflexivity. now apply Hmsg.
Qed.

Lemma accepted_submission_appends_user_then_assistant_witness :
  dataset readyState = Some scoresDataset /\
  JS.trim (queryOf None (input readyState)) <> "" /\
  loading readyState = false /\
  exists (st1 : AppState) (call : AnalyzeCall) (userMsg reply : Message),
    handleSendMessage None 1700000001000 1700000001000 readyState = (st1, Some call) /\
    messages st1 = (messages readyState ++ [userMsg])%list /\
    loading st1 = true /\
    let result :=
      analyzeData (call_query call) (call_dataset call) (call_history call) (Threw "") in
    let st2 := handleSendMessage_settled result 1700000002000 1700000002000 st1 in
    messages st2 = (messages readyState ++ [userMsg; reply])%list /\
    loading st2 = false /\
    msg_role userMsg = user /\
    msg_content userMsg = queryOf None (input readyState) /\
    msg_response userMsg = None /\
    msg_role reply = assistant /\
    match result with
    | inl response =>
        msg_response reply = Some response /\ msg_content reply = insight response
    | inr message =>
        msg_response reply = None /\ msg_content reply = message /\ message <> ""
    end.
Proof.
  split; [reflexivity |]. split; [vm_compute; discriminate |].
  split; [reflexivity |].
  apply (accepted_submission_appends_user_then_assistant readyState scoresDataset);
    [reflexivity | vm_compute; discriminate | reflexivity].
Defined.

(** C4. In every state in which a submission is in flight, or the query
    text is blank, or no dataset is loaded, a new submission changes
    nothing: the state, the exchange sequence in it, is what it was, no
    call is started, and nothing is kept for later, so whatever happens
    next happens as if the submission had not been attempted. *)
Theorem rejected_submission_is_noop
    (w : World) (textOverride : option string) (now date : N) :
  loading (app w) = true \/
  JS.trim (queryOf textOverride (input (app w))) = "" \/
  dataset (app w) = None ->
  handleSendMessage textOverride now date (app w) = (app w, None) /\
  messages (fst (handleSendMessage textOverride now date (app w))) = messages (app w) /\
  step w (Send textOverride now date) = w /\
  forall es : list Event, run w (Send textOverride now date :: es) = run w es.
Proof.
  intros Hguard.
  pose proof (handleSendMessage_rejected (app w) textOverride now date Hguard) as Hsend.
  assert (step w (Send textOverride now date) = w) as Hstep
      by (simpl; rewrite Hsend; now destruct w).
  rewrite Hsend. repeat split; [exact Hstep |].
  intros es. simpl. fold (step w (Send textOverride now date)). now rewrite Hstep.
Qed.

Lemma rejected_submission_is_noop_witness :
  let w := run initialWorld
             [ Upload (Some scoresFile) "k3j9x2ab1";
               SetActiveTab TabChat;
               Send (Some "Who scored most?") 1700000001000 1700000001000 ] in
  let w' := run initialWorld
              [ Upload (Some scoresFile) "k3j9x2ab1";
                SetActiveTab TabChat;
                SetInput "   " ] in
  (loading (app w) = true /\
   is_Some (dataset (app w)) /\
   JS.trim (queryOf (Some "And least?") (input (app w))) <> "" /\
   List.length (messages (app w)) = 1 /\
   step w (Send (Some "And least?") 1700000001500 1700000001500) = w /\
   run w [ Send (Some "And least?") 1700000001500 1700000001500;
           Settle (Returned topScore) 1700000002000 1700000002000 ]
   = run w [ Settle (Returned topScore) 1700000002000 1700000002000 ]) /\
  (loading (app w') = false /\
   is_Some (dataset (app w')) /\
   JS.trim (queryOf None (input (app w'))) = "" /\
   step w' (Send None 1700000001500 1700000001500) = w').
Proof.
  intros w w'. split.
  - assert (loading (app w) = true) as Hflight by (vm_compute; reflexivity).
    pose proof (rejected_submission_is_noop w (Some "And least?")
                  1700000001500 1700000001500 (or_introl Hflight))
      as (_ & _ & Hstep & Hrun).
    split; [exact Hflight |].
    split; [vm_compute; eauto |].
    split; [vm_compute; discriminate |].
    split; [vm_compute; reflexivity |].
    split; [exact Hstep | apply Hrun].
  - assert (JS.trim (queryOf None (input (app w'))) = "") as Hblank
        by (vm_compute; reflexivity).
    split; [vm_compute; reflexivity |].
    split; [vm_compute; eauto |].
    split; [exact Hblank |].
    exact (proj1 (proj2 (proj2
             (rejected_submission_is_noop w' None 1700000001500 1700000001500
                (or_intror (or_introl Hblank)))))).
Defined.

(** C8. For every accepted submission, the history passed to
    [analyzeData] is the exchange sequence as it was before the
    submission, each exchange projected to its role and content, in the
    original order; the user exchange the submission appends is not part
    of it. *)
Theorem history_is_the_prior_exchanges
    (st st' : AppState) (textOverride : option string) (now date : N)
    (call : AnalyzeCall) :
  handleSendMessage textOverride now date st = (st', Some call) ->
  call_history call
  = List.map (fun m => {| h_role := msg_role m; h_content := msg_content m |})
      (messages st) /\
  (forall (i : nat) (m : Message),
      messages st !! i = Some m ->
      call_history call !! i
      = Some {| h_role := msg_role m; h_content := msg_content m |}) /\
  exists userMsg : Message,
    messages st' = (messages st ++ [userMsg])%list /\
    msg_role userMsg = user /\
    msg_content userMsg = call_query call /\
    messages st' !! List.length (messages st) = Some userMsg /\
    call_history call !! List.length (messages st) = None.
Proof.
  intros Hsend.
  destruct (handleSendMessage_call _ _ _ _ _ _ Hsend) as (Hd & Hq & Hl).
  rewrite (handleSendMessage_accepted st _ textOverride now date Hd Hq Hl) in Hsend.
  injection Hsend as <- <-. simpl. split; [reflexivity |]. split.
  - intros i m Hi. unfold historyOf. now rewrite lookup_map, Hi.
  - eexists. split; [reflexivity |]. repeat split.
    + rewrite lookup_app_r by lia. now rewrite Nat.sub_diag.
    + apply lookup_ge_None_2. unfold historyOf. now rewrite length_map.
Qed.

Lemma history_is_the_prior_exchanges_witness :
  exists (st' : AppState) (call : AnalyzeCall),
    handleSendMessage None 1700000001000 1700000001000 readyState = (st', Some call) /\
    call_history call
    = [ {| h_role := user; h_content := "How many rows?" |};
        {| h_role := assistant; h_content := "None yet." |} ].
Proof.
  eexists _, _. split; [reflexivity |].
  exact (proj1 (history_is_the_prior_exchanges readyState _ None
                  1700000001000 1700000001000 _ eq_refl)).
Defined.

(** ** The frame of the handlers *)

Section Frame.

Lemma handleFileUpload_frame (st : AppState) (file : option File) (randomId : string) :
  messages (fst (handleFileUpload file randomId st)) = messages st /\
  chartRefs (fst (handleFileUpload file randomId st)) = chartRefs st /\
  loading (fst (handleFileUpload file randomId st)) = loading st /\
  input (fst (handleFileUpload file randomId st)) = input st.
Proof.
  unfold handleFileUpload. destruct file as [f|]; [| now repeat split].
  destruct (Nat.eqb _ 0); now repeat split.
Qed.

Lemma handleSendMessage_extends (st : AppState) (textOverride : option string)
    (now date : N) :
  exists added : list Message,
    messages (fst (handleSendMessage textOverride now date st))
    = (messages st ++ added)%list.
Proof.
  unfold handleSendMessage. destruct (dataset st); [| exists []; now rewrite app_nil_r].
  destruct (_ || _); [exists []; now rewrite app_nil_r |]. now eexists.
Qed.

Lemma renderChat_frame (st : AppState) :
  messages (renderChat st) = messages st /\ loading (renderChat st) = loading st.
Proof.
  unfold renderChat. destruct (activeTab st); try now split.
  destruct (dataset st); now split.
Qed.

(** No event but the two that call [clearChat] removes an exchange. *)
Lemma step_extends (w : World) (e : Event) :
  e <> ClearChat -> e <> RemoveDataset ->
  exists added : list Message,
    messages (app (step w e)) = (messages (app w) ++ added)%list.
Proof.
  intros Hclear Hremove. destruct e; simpl; try contradiction.
  - exists []. rewrite app_nil_r. apply handleFileUpload_frame.
  - destruct (handleSendMessage_extends (app w) textOverride now date) as [added H].
    exists added. now destruct (handleSendMessage _ _ _ _) as [st [call|]].
  - destruct (inFlight w); [now eexists | exists []; now rewrite app_nil_r].
  - exists []. now rewrite app_nil_r.
  - exists []. now rewrite app_nil_r.
  - exists []. rewrite app_nil_r. apply renderChat_frame.
Qed.

(** The in-flight flag is set exactly while a call is in flight. *)
Lemma loading_iff_inFlight (es : list Event) :
  loading (app (run initialWorld es)) = true <->
  is_Some (inFlight (run initialWorld es)).
Proof.
  unfold run. rewrite <- fold_left_rev_right.
  induction (rev es) as [|e res IH]; simpl.
  - split; [discriminate | now intros [? [=]]].
  - set (w := fold_right (fun e w => step w e) initialWorld res) in *.
    destruct e; simpl; try exact IH.
    + now rewrite (proj1 (proj2 (proj2 (handleFileUpload_frame _ _ _)))).
    + destruct (handleSendMessage textOverride now date (app w)) as [st [call|]] eqn:Hs.
      * destruct (handleSendMessage_call _ _ _ _ _ _ Hs) as (Hd & Hq & Hl).
        rewrite (handleSendMessage_accepted _ _ textOverride now date Hd Hq Hl) in Hs.
        injection Hs as <- <-. simpl. split; [now eexists | reflexivity].
      * simpl. unfold handleSendMessage in Hs.
        destruct (dataset (app w)); [| now injection Hs as <-].
        destruct (_ || _); [now injection Hs as <- | discriminate].
    + destruct (inFlight w) eqn:Hw; simpl; [| now rewrite <- Hw in IH].
      split; [discriminate | now intros [? [=]]].
    + now rewrite (proj2 (renderChat_frame _)).
Qed.

End Frame.

(** C10. Uploading a file replaces the dataset (when the file has a
    header row) and leaves the exchange sequence and the chart-handle map
    as they were, so the next accepted submission passes the exchanges
    recorded before the upload to [analyzeData] as its history, with the
    new dataset, and the request replays them ahead of the query.  An
    event takes exchanges away only by calling [clearChat], which empties
    the sequence and the chart-handle map: the reset action of the chat,
    and the removal of the dataset through it. *)
Theorem upload_keeps_the_conversation
    (st : AppState) (file : option File) (randomId : string) :
  let st' := fst (handleFileUpload file randomId st) in
  messages st' = messages st /\
  chartRefs st' = chartRefs st /\
  (forall f : File,
      file = Some f -> headers (parseCSV (file_text f)) <> [] ->
      dataset st'
      = Some {| ds_name := file_name f;
                ds_columns := headers (parseCSV (file_text f));
                ds_data := rows (parseCSV (file_text f));
                ds_id := randomId |}) /\
  (forall (textOverride : option string) (now date : N) (st'' : AppState)
          (call : AnalyzeCall),
      handleSendMessage textOverride now date st' = (st'', Some call) ->
      call_history call = historyOf (messages st) /\
      dataset st' = Some (call_dataset call) /\
      requestContents (call_query call) (call_history call)
      = (List.map (fun m => (roleLabel (msg_role m), msg_content m)) (messages st)
         ++ [("user", call_query call)])%list) /\
  (forall (w : World) (e : Event),
      e <> ClearChat -> e <> RemoveDataset ->
      exists added : list Message,
        messages (app (step w e)) = (messages (app w) ++ added)%list) /\
  messages (clearChat st) = [] /\ chartRefs (clearChat st) = ∅ /\
  messages (removeDataset st) = [].
Proof.
  cbv zeta. destruct (handleFileUpload_frame st file randomId) as (Hm & Hc & _ & _).
  split; [exact Hm |]. split; [exact Hc |]. split; [| split; [| split]].
  - intros f -> Hheaders. unfold handleFileUpload.
    destruct (headers (parseCSV (file_text f))) eqn:Hh; [contradiction | reflexivity].
  - intros textOverride now date st'' call Hsend.
    destruct (handleSendMessage_call _ _ _ _ _ _ Hsend) as (Hd & Hq & Hl).
    rewrite (handleSendMessage_accepted _ _ textOverride now date Hd Hq Hl) in Hsend.
    injection Hsend as <- <-. cbn [call_history call_dataset call_query].
    rewrite Hm. split; [reflexivity |]. split; [exact Hd |].
    unfold requestContents, historyOf. now rewrite List.map_map.
  - exact step_extends.
  - repeat split.
Qed.

Lemma upload_keeps_the_conversation_witness :
  let st := app (run initialWorld lateReplySession) in
  let st' := fst (handleFileUpload (Some citiesFile) "q81mz0c7d" st) in
  headers (parseCSV (file_text citiesFile)) <> [] /\
  List.length (messages st) = 1 /\
  messages st' = messages st /\
  dataset st'
  = Some {| ds_name := "cities.csv";
            ds_columns := headers (parseCSV (file_text citiesFile));
            ds_data := rows (parseCSV (file_text citiesFile));
            ds_id := "q81mz0c7d" |}.
Proof.
  intros st st'.
  assert (headers (parseCSV (file_text citiesFile)) <> []) as H
      by (vm_compute; discriminate).
  pose proof (upload_keeps_the_conversation st (Some citiesFile) "q81mz0c7d")
    as (Hm & _ & Hd & _).
  split; [exact H |]. split; [reflexivity |].
  split; [exact Hm | exact (Hd citiesFile eq_refl H)].
Defined.

(** ** Events while a call is in flight *)

Section InFlight.

Lemma step_while_in_flight (w : World) (e : Event) :
  loading (app w) = true -> quiet e ->
  messages (app (step w e)) = messages (app w) /\
  loading (app (step w e)) = true /\
  inFlight (step w e) = inFlight w.
Proof.
  intros Hl Hq. destruct e; simpl in Hq; try contradiction; simpl.
  - destruct (handleFileUpload_frame (app w) file randomId) as (Hm & _ & Hl' & _).
    now rewrite Hm, Hl'.
  - rewrite (handleSendMessage_rejected (app w) textOverride now date) by now left.
    now simpl.
  - now repeat split.
  - now repeat split.
  - destruct (renderChat_frame (app w)) as [Hm Hl']. now rewrite Hm, Hl'.
Qed.

Lemma run_while_in_flight (es : list Event) (w : World) :
  loading (app w) = true -> Forall quiet es ->
  messages (app (run w es)) = messages (app w) /\
  loading (app (run w es)) = true /\
  inFlight (run w es) = inFlight w.
Proof.
  revert w. induction es as [|e es IH]; intros w Hl Hq; [now repeat split |].
  apply Forall_cons_1 in Hq as [He Hes].
  destruct (step_while_in_flight w e Hl He) as (Hm & Hl' & Hf).
  destruct (IH (step w e) Hl' Hes) as (Hm' & Hl'' & Hf').
  simpl. unfold run in *. now rewrite Hm', Hl'', Hf', Hm, Hf.
Qed.

(** An accepted submission is answered by one user exchange and one
    assistant exchange, whatever else happens before the call settles,
    short of clearing the chat. *)
Lemma submission_settles_among_other_events
    (w : World) (d : Dataset) (textOverride : option string)
    (now date now' date' : N) (outcome : TryOutcome) (es : list Event) :
  dataset (app w) = Some d ->
  JS.trim (queryOf textOverride (input (app w))) <> "" ->
  loading (app w) = false ->
  Forall quiet es ->
  exists userMsg reply : Message,
    messages (app (run w (Send textOverride now date :: es
                          ++ [Settle outcome now' date'])))
    = (messages (app w) ++ [userMsg; reply])%list /\
    msg_role userMsg = user /\ msg_role reply = assistant /\
    loading (app (run w (Send textOverride now date :: es
                         ++ [Settle outcome now' date']))) = false.
Proof.
  intros Hd Hq Hl Hes. unfold run. simpl. rewrite fold_left_app. simpl.
  rewrite (handleSendMessage_accepted (app w) d textOverride now date Hd Hq Hl).
  match goal with |- context [fold_left step es ?w1] => set (sent := w1) end.
  destruct (run_while_in_flight es sent eq_refl Hes) as (Hm & _ & Hf).
  unfold run in Hm, Hf. rewrite Hf. simpl. rewrite Hm. simpl.
  rewrite <- app_assoc. simpl.
  destruct (analyzeData _ _ _ outcome); eexists _, _; repeat split.
Qed.

End InFlight.

(** The exchanges of a removed dataset can outlive it: a reply that
    arrives after the removal stays in the sequence, the next upload keeps
    it, and the next submission sends it as history with the new
    dataset. *)
Example late_reply_is_replayed :
  let w := run initialWorld
             (lateReplySession
              ++ [ Upload (Some citiesFile) "q81mz0c7d";
                   SetActiveTab TabChat;
                   Send (Some "How many people?") 1700000003000 1700000003000 ]) in
  (ds_name <$> dataset (app w)) = Some "cities.csv" /\
  (call_history <$> inFlight w)
  = Some [ {| h_role := assistant; h_content := fallbackMessage |} ] /\
  (ds_name <$> (call_dataset <$> inFlight w)) = Some "cities.csv".
Proof. vm_compute. repeat split. Qed.

(** * Further properties of the code *)

(** ** Trimming *)

Section Trimming.

Lemma trimStart_head (s : string) :
  match JS.trimStart s with
  | String c _ => JS.isWhiteSpace c = false
  | EmptyString => True
  end.
Proof.
  induction s as [|c s IH]; simpl; [exact I |].
  destruct (JS.isWhiteSpace c) eqn:Hc; [exact IH | exact Hc].
Qed.

Lemma trimEnd_head (s : string) :
  match s with
  | String c _ => JS.isWhiteSpace c = false
  | EmptyString => True
  end ->
  match JS.trimEnd s with
  | String c _ => JS.isWhiteSpace c = false
  | EmptyString => True
  end.
Proof.
  destruct s as [|c s]; simpl; [trivial |]. intros Hc.
  destruct (JS.trimEnd s); [now rewrite Hc | exact Hc].
Qed.

Lemma trimStart_fixed (s : string) :
  match s with
  | String c _ => JS.isWhiteSpace c = false
  | EmptyString => True
  end ->
  JS.trimStart s = s.
Proof. destruct s as [|c s]; simpl; [trivial |]. now intros ->. Qed.

Lemma trimEnd_idem (s : string) : JS.trimEnd (JS.trimEnd s) = JS.trimEnd s.
Proof.
  induction s as [|c s IH]; simpl; [reflexivity |].
  destruct (JS.trimEnd s) as [|d t] eqn:Ht.
  - destruct (JS.isWhiteSpace c) eqn:Hc; simpl; [reflexivity | now rewrite Hc].
  - simpl in *. now rewrite IH.
Qed.

(** [trim] leaves nothing for a second [trim] to remove. *)
Lemma trim_idem (s : string) : JS.trim (JS.trim s) = JS.trim s.
Proof.
  unfold JS.trim.
  rewrite (trimStart_fixed (JS.trimEnd (JS.trimStart s))).
  - apply trimEnd_idem.
  - apply trimEnd_head, trimStart_head.
Qed.

(** A text that starts with a character other than white space is not
    blank. *)
Lemma trim_nonblank (c : ascii) (s : string) :
  JS.isWhiteSpace c = false -> JS.trim (String c s) <> "".
Proof.
  intros Hc. unfold JS.trim. simpl. rewrite Hc. simpl.
  destruct (JS.trimEnd s); [now rewrite Hc | discriminate].
Qed.

End Trimming.

Lemma parseLine_trimmed (line field : string) :
  field ∈ parseLine line -> JS.trim field = field.
Proof.
  rewrite parseLine_splitFields.
  intros (raw & <- & _)%list_elem_of_In%in_map_iff. apply trim_idem.
Qed.

Lemma parseLine_nonempty (line : string) : parseLine line <> [].
Proof.
  rewrite parseLine_splitFields. pose proof (splitFields_nonempty false line).
  now destruct (splitFields false line).
Qed.

(** X1. [parseLine] never returns an empty list, the empty line gives one
    empty field, and no field it returns has white space at either end. *)
Theorem parseLine_fields_are_trimmed (line : string) :
  parseLine line <> [] /\
  parseLine "" = [""] /\
  Forall (fun field => JS.trim field = field) (parseLine line).
Proof.
  split; [apply parseLine_nonempty | split; [reflexivity |]].
  apply Forall_forall. apply parseLine_trimmed.
Qed.

(** ** The keys and values of a row *)

Section RowLookup.

Implicit Types (obj : gmap string JS.Value) (hs values : list string).

Lemma forEach_header_proto hs (i : nat) values obj :
  forEach_header hs i values obj !! "__proto__" = obj !! "__proto__".
Proof.
  revert i obj. induction hs as [|h hs IH]; intros i obj; simpl; [reflexivity |].
  rewrite IH. unfold JS.setProperty.
  destruct (String.eqb_spec h "__proto__") as [-> | Hne]; [reflexivity |].
  now apply lookup_insert_ne.
Qed.

Lemma forEach_header_untouched hs (i : nat) values obj (key : string) :
  key ∉ hs -> forEach_header hs i values obj !! key = obj !! key.
Proof.
  revert i obj. induction hs as [|h hs IH]; intros i obj Hkey; simpl; [reflexivity |].
  apply not_elem_of_cons in Hkey as [Hne Hkey].
  rewrite IH by exact Hkey. now apply setProperty_lookup_ne.
Qed.

(** The value under a key comes from the last column of that name. *)
Lemma forEach_header_last hs (i : nat) values obj (key : string) (j : nat) :
  hs !! j = Some key ->
  (forall j' : nat, j < j' -> hs !! j' <> Some key) ->
  key <> "__proto__" ->
  forEach_header hs i values obj !! key = Some (cellValue (values !! (i + j))).
Proof.
  intros Hj Hlast Hproto.
  rewrite <- (take_drop_middle hs j key Hj), forEach_header_app. simpl.
  rewrite forEach_header_untouched.
  - rewrite setProperty_lookup_eq by exact Hproto.
    rewrite length_take. apply lookup_lt_Some in Hj.
    now replace (i + j `min` length hs) with (i + j) by lia.
  - intros (k & Hk)%list_elem_of_lookup. rewrite lookup_drop in Hk.
    apply (Hlast (S j + k)); [lia | exact Hk].
Qed.

Lemma last_occurrence hs (key : string) :
  key ∈ hs ->
  exists j : nat,
    hs !! j = Some key /\ forall j' : nat, j < j' -> hs !! j' <> Some key.
Proof.
  induction hs as [|h hs IH]; [now intros ?%elem_of_nil |].
  intros Hin. destruct (decide (key ∈ hs)) as [Hrest | Hrest].
  - destruct (IH Hrest) as (j & Hj & Hlast). exists (S j). split; [exact Hj |].
    intros [|j'] Hlt; [lia |]. simpl. apply Hlast. lia.
  - apply elem_of_cons in Hin as [-> | Hin]; [| contradiction].
    exists 0. split; [reflexivity |].
    intros [|j'] Hlt; [lia |]. simpl. intros Hk.
    apply Hrest. now apply list_elem_of_lookup_2 in Hk.
Qed.

Lemma parseRow_keys hs (line : string) (key : string) :
  is_Some (parseRow hs line !! key) <-> key ∈ hs /\ key <> "__proto__".
Proof.
  unfold parseRow. split.
  - intros Hsome. split.
    + apply forEach_header_keys in Hsome as [Hempty | Hin]; [| exact Hin].
      rewrite lookup_empty in Hempty. now destruct Hempty.
    + intros ->. rewrite forEach_header_proto, lookup_empty in Hsome.
      now destruct Hsome.
  - intros [(j & Hj & Hlast)%last_occurrence Hproto].
    rewrite (forEach_header_last hs 0 _ ∅ key j Hj Hlast Hproto). eauto.
Qed.

(** No row has a value of its own under [__proto__]. *)
Lemma parseRow_proto hs (line : string) : parseRow hs line !! "__proto__" = None.
Proof.
  destruct (parseRow hs line !! "__proto__") as [v|] eqn:Hv; [| reflexivity].
  assert (is_Some (parseRow hs line !! "__proto__")) as Hsome by eauto.
  apply parseRow_keys in Hsome as [_ Hne]. contradiction.
Qed.

(** Every row of [parseCSV] is built from a line, over the headers. *)
Lemma parsed_row (text : string) (row : gmap string JS.Value) :
  row ∈ rows (parseCSV text) ->
  exists line : string, row = parseRow (headers (parseCSV text)) line.
Proof.
  unfold parseCSV. destruct (nonBlankLines text) as [|first rest]; simpl.
  - now intros ?%elem_of_nil.
  - intros (line & <- & _)%list_elem_of_In%in_map_iff. eauto.
Qed.

End RowLookup.

(** X2. Every row [parseCSV] returns has the same keys, whatever the
    number of fields on its line: the headers, but for a header spelled
    [__proto__]. *)
Theorem rows_share_the_header_keys
    (text : string) (row : gmap string JS.Value) (key : string) :
  row ∈ rows (parseCSV text) ->
  (is_Some (row !! key) <->
   key ∈ headers (parseCSV text) /\ key <> "__proto__").
Proof.
  unfold parseCSV. destruct (nonBlankLines text) as [|first rest]; simpl.
  - now intros ?%elem_of_nil.
  - intros (line & <- & _)%list_elem_of_In%in_map_iff. apply parseRow_keys.
Qed.

Lemma rows_share_the_header_keys_witness :
  let row := parseRow ["a"; "b"] "1" in
  row ∈ rows (parseCSV shortCSV) /\
  (is_Some (row !! "b") <->
   "b" ∈ headers (parseCSV shortCSV) /\ "b" <> "__proto__").
Proof.
  intros row.
  assert (row ∈ rows (parseCSV shortCSV)) as H by apply list_elem_of_here.
  split; [exact H | exact (rows_share_the_header_keys shortCSV row "b" H)].
Defined.

(** X3. When two or more columns have the same header, a row keeps one
    value under that name, the one of the last such column; the fields of
    the earlier ones are lost.  The header [__proto__] is the exception:
    under it a row keeps no value, however many columns have it, and
    reading it gives the prototype of the row. *)
Theorem last_duplicate_header_wins
    (hs : list string) (line key : string) (j : nat) :
  hs !! j = Some key ->
  (forall j' : nat, j < j' -> hs !! j' <> Some key) ->
  (key <> "__proto__" ->
   parseRow hs line !! key = Some (cellValue (parseLine line !! j)) /\
   JS.getProperty (parseRow hs line) key = cellValue (parseLine line !! j)) /\
  (key = "__proto__" ->
   parseRow hs line !! key = None /\
   JS.getProperty (parseRow hs line) key = JS.VObject "[object Object]").
Proof.
  intros Hj Hlast. split.
  - intros Hproto.
    pose proof (forEach_header_last hs 0 (parseLine line) ∅ key j Hj Hlast Hproto)
      as Hkey.
    change (0 + j) with j in Hkey. fold (parseRow hs line) in Hkey.
    split; [exact Hkey |]. unfold JS.getProperty. now rewrite Hkey.
  - intros ->. pose proof (parseRow_proto hs line) as Hnone.
    split; [exact Hnone |]. unfold JS.getProperty. now rewrite Hnone.
Qed.

Lemma last_duplicate_header_wins_witness :
  (["id"; "name"; "id"] !! 2 = Some "id" /\
   parseRow ["id"; "name"; "id"] "7,Ann,x9" !! "id" = Some (JS.VString "x9")) /\
  (["__proto__"; "__proto__"] !! 1 = Some "__proto__" /\
   parseRow ["__proto__"; "__proto__"] "1,2" !! "__proto__" = None).
Proof.
  assert (forall (a b : string) (j' : nat), 2 < j' -> [a; b; a] !! j' <> Some a)
    as Hlast3 by (intros a b [|[|[|j']]] Hlt; simpl; try lia; discriminate).
  assert (forall (a : string) (j' : nat), 1 < j' -> [a; a] !! j' <> Some a)
    as Hlast2 by (intros a [|[|j']] Hlt; simpl; try lia; discriminate).
  split; (split; [reflexivity |]).
  - exact (proj1 (proj1 (last_duplicate_header_wins ["id"; "name"; "id"]
                           "7,Ann,x9" "id" 2 eq_refl (Hlast3 "id" "name"))
                    ltac:(discriminate))).
  - exact (proj1 (proj2 (last_duplicate_header_wins ["__proto__"; "__proto__"]
                           "1,2" "__proto__" 1 eq_refl (Hlast2 "__proto__"))
                    eq_refl)).
Defined.

(** X4. A value of a row of [parseCSV] is [undefined], a number or a
    string, never [null] or an object.  A number is never [NaN]; a string
    has no white space at either end and is empty or not numeric, so no
    text that [Number] accepts is left as a string. *)
Theorem cells_are_numbers_or_clean_text
    (text : string) (row : gmap string JS.Value) (key : string) (v : JS.Value) :
  row ∈ rows (parseCSV text) ->
  row !! key = Some v ->
  match v with
  | JS.VUndefined => True
  | JS.VNumber x => JS.isNaN x = false
  | JS.VString s =>
      JS.trim s = s /\
      (s = "" \/ JS.isNaN (JS.Number (JS.removeCommas s)) = true)
  | JS.VNull | JS.VObject _ => False
  end.
Proof.
  unfold parseCSV. destruct (nonBlankLines text) as [|first rest]; simpl.
  { now intros ?%elem_of_nil. }
  intros (line & <- & _)%list_elem_of_In%in_map_iff.
  intros [Hempty | (j & _ & ->)]%forEach_header_values.
  { now rewrite lookup_empty in Hempty. }
  simpl. destruct (parseLine line !! j) as [field|] eqn:Hfield; simpl; [| exact I].
  apply list_elem_of_lookup_2, parseLine_trimmed in Hfield.
  destruct (String.eqb_spec field "") as [-> | Hne]; simpl; [now split; [| left] |].
  destruct (JS.isNaN (JS.Number (JS.removeCommas field))) eqn:Hnan; simpl.
  - split; [exact Hfield | now right].
  - exact Hnan.
Qed.

Lemma cells_are_numbers_or_clean_text_witness :
  let row := parseRow ["name"; "score"] "Alice,10" in
  row ∈ rows (parseCSV sampleCSV) /\
  row !! "name" = Some (JS.VString "Alice") /\
  JS.trim "Alice" = "Alice" /\
  ("Alice" = "" \/ JS.isNaN (JS.Number (JS.removeCommas "Alice")) = true).
Proof.
  intros row.
  assert (row ∈ rows (parseCSV sampleCSV)) as Hrow by apply list_elem_of_here.
  assert (row !! "name" = Some (JS.VString "Alice")) as Hname by reflexivity.
  split; [exact Hrow |]. split; [exact Hname |].
  exact (cells_are_numbers_or_clean_text sampleCSV row "name" _ Hrow Hname).
Defined.

(** ** Uploading *)

Section Uploading.

Lemma nonBlankLines_nil (text : string) :
  nonBlankLines text = [] <->
  Forall (fun l => JS.trim l = "") (JS.split_lines text).
Proof.
  unfold nonBlankLines. induction (JS.split_lines text) as [|l ls IH]; simpl.
  - split; [constructor | reflexivity].
  - destruct (String.eqb_spec (JS.trim l) "") as [Hl | Hl]; simpl.
    + rewrite IH. split; [now constructor | now intros [_ H]%Forall_cons_1].
    + split; [discriminate | now intros [H _]%Forall_cons_1].
Qed.

Lemma parseCSV_headers_nil (text : string) :
  headers (parseCSV text) = [] <-> nonBlankLines text = [].
Proof.
  unfold parseCSV. destruct (nonBlankLines text) as [|first rest]; simpl.
  - split; reflexivity.
  - split; [| discriminate]. intros H. now apply parseLine_nonempty in H.
Qed.

End Uploading.

(** X5. [handleFileUpload] refuses a file, with the alert, exactly when the
    file has no line that is not blank, and then it changes nothing.  Any
    other text is taken: the dataset becomes the parsed file under the
    file's name, with at least one column and one row for each non-blank
    line after the first, and the data tab is shown.  Without a file
    nothing happens. *)
Theorem upload_is_refused_iff_blank
    (st : AppState) (f : File) (randomId : string) :
  let result := handleFileUpload (Some f) randomId st in
  (snd result = true <->
   Forall (fun l => JS.trim l = "") (JS.split_lines (file_text f))) /\
  (snd result = true -> fst result = st) /\
  (snd result = false ->
   activeTab (fst result) = TabDataset /\
   exists d : Dataset,
     dataset (fst result) = Some d /\
     ds_name d = file_name f /\ ds_id d = randomId /\
     ds_columns d <> [] /\
     S (List.length (ds_data d)) = List.length (nonBlankLines (file_text f))) /\
  handleFileUpload None randomId st = (st, false).
Proof.
  cbv zeta. unfold handleFileUpload.
  rewrite <- nonBlankLines_nil, <- parseCSV_headers_nil.
  destruct (headers (parseCSV (file_text f))) as [|h hs] eqn:Hh; simpl.
  - repeat split; discriminate.
  - split; [split; discriminate |]. split; [discriminate |].
    split; [| reflexivity]. intros _. split; [reflexivity |].
    eexists. split; [reflexivity |]. simpl.
    repeat split; [discriminate |].
    revert Hh. unfold parseCSV.
    destruct (nonBlankLines (file_text f)); simpl; [discriminate |].
    intros _. now rewrite length_map.
Qed.

Lemma upload_is_refused_iff_blank_witness :
  snd (handleFileUpload (Some scoresFile) "k3j9x2ab1" initialState) = false /\
  activeTab (fst (handleFileUpload (Some scoresFile) "k3j9x2ab1" initialState))
  = TabDataset.
Proof.
  assert (snd (handleFileUpload (Some scoresFile) "k3j9x2ab1" initialState) = false)
    as Htaken by (vm_compute; reflexivity).
  split; [exact Htaken |].
  pose proof (upload_is_refused_iff_blank initialState scoresFile "k3j9x2ab1") as Hup.
  cbv zeta in Hup. destruct Hup as (_ & _ & Hup & _).
  exact (proj1 (Hup Htaken)).
Defined.

(** ** Line breaks *)

Section LineBreaks.

Lemma allChars_app (p : ascii -> bool) (a b : string) :
  allChars p (a ++ b) = allChars p a && allChars p b.
Proof.
  induction a as [|c a IH]; [reflexivity |].
  rewrite append_cons. simpl. now rewrite IH, andb_assoc.
Qed.

Lemma join_cons (sep x y : string) (rest : list string) :
  JS.join sep (x :: y :: rest) = x ++ sep ++ JS.join sep (y :: rest).
Proof. reflexivity. Qed.

Lemma split_lines_nonempty (s : string) : JS.split_lines s <> [].
Proof.
  destruct s as [|c s]; simpl; [discriminate |].
  destruct (Ascii.eqb c JS.LF); [discriminate |].
  assert (match JS.split_lines s with
          | l :: ls => String c l :: ls
          | [] => [String c ""]
          end <> []) as Hkeep by (destruct (JS.split_lines s); discriminate).
  destruct (Ascii.eqb c JS.CR); [| exact Hkeep].
  destruct s as [|c' s']; [exact Hkeep |].
  destruct (Ascii.eqb c' JS.LF); [discriminate | exact Hkeep].
Qed.

(** A character other than a line feed, in front of a text that does not
    start with one, stays in the first piece. *)
Lemma split_lines_keep (c : ascii) (s : string) :
  Ascii.eqb c JS.LF = false ->
  match s with
  | String c' _ => Ascii.eqb c JS.CR && Ascii.eqb c' JS.LF = false
  | EmptyString => True
  end ->
  JS.split_lines (String c s)
  = match JS.split_lines s with
    | l :: ls => String c l :: ls
    | [] => [String c ""]
    end.
Proof.
  intros Hc Hnext. cbn [JS.split_lines]. rewrite Hc.
  destruct (Ascii.eqb c JS.CR); [| reflexivity].
  destruct s as [|c' s']; [reflexivity |]. simpl in Hnext. now rewrite Hnext.
Qed.

Lemma split_lines_nl (s t : string) :
  plainLine s = true ->
  JS.split_lines (s ++ nl ++ t) = s :: JS.split_lines t.
Proof.
  unfold plainLine, oneLine. induction s as [|c s IH]; [reflexivity |].
  cbn [allChars]. intros [[Hc Hs]%andb_prop Hcr%negb_true_iff]%andb_prop.
  apply negb_true_iff in Hc. rewrite append_cons, split_lines_keep.
  - rewrite IH; [reflexivity |]. rewrite Hs. simpl.
    destruct s as [|d s]; [reflexivity |].
    change (endsWithCR (String d s) = false) in Hcr. now rewrite Hcr.
  - exact Hc.
  - destruct s as [|c' s'].
    + simpl. simpl in Hcr. now rewrite Hcr.
    + rewrite append_cons. simpl in Hs. apply andb_prop in Hs as [Hc' _].
      apply negb_true_iff in Hc'. rewrite Hc'. apply andb_false_r.
Qed.

Lemma split_lines_crlf (s t : string) :
  oneLine s = true ->
  JS.split_lines (s ++ crlf ++ t) = s :: JS.split_lines t.
Proof.
  unfold oneLine. induction s as [|c s IH]; [reflexivity |].
  cbn [allChars]. intros [Hc%negb_true_iff Hs]%andb_prop.
  rewrite append_cons, split_lines_keep.
  - now rewrite IH.
  - exact Hc.
  - destruct s as [|c' s'].
    + simpl. apply andb_false_r.
    + rewrite append_cons. simpl in Hs. apply andb_prop in Hs as [Hc' _].
      apply negb_true_iff in Hc'. rewrite Hc'. apply andb_false_r.
Qed.

Lemma split_lines_one (s : string) :
  oneLine s = true -> JS.split_lines s = [s].
Proof.
  unfold oneLine. induction s as [|c s IH]; [reflexivity |].
  cbn [allChars]. intros [Hc%negb_true_iff Hs]%andb_prop.
  rewrite split_lines_keep.
  - now rewrite IH.
  - exact Hc.
  - destruct s as [|c' s']; [exact I |]. simpl in Hs.
    apply andb_prop in Hs as [Hc' _]. apply negb_true_iff in Hc'.
    rewrite Hc'. apply andb_false_r.
Qed.

Lemma split_join_nl (ls : list string) :
  ls <> [] -> forallb plainLine ls = true ->
  JS.split_lines (JS.join nl ls) = ls.
Proof.
  induction ls as [|l [|l' ls] IH]; [contradiction | |]; intros _.
  - simpl. rewrite andb_true_r. unfold plainLine.
    intros [Hl _]%andb_prop. now apply split_lines_one.
  - cbn [forallb]. intros [Hl Hls]%andb_prop.
    rewrite join_cons, (split_lines_nl _ _ Hl), IH; [reflexivity | discriminate | exact Hls].
Qed.

Lemma split_join_crlf (ls : list string) :
  ls <> [] -> forallb oneLine ls = true ->
  JS.split_lines (JS.join crlf ls) = ls.
Proof.
  induction ls as [|l [|l' ls] IH]; [contradiction | |]; intros _.
  - simpl. rewrite andb_true_r. apply split_lines_one.
  - cbn [forallb]. intros [Hl Hls]%andb_prop.
    rewrite join_cons, (split_lines_crlf _ _ Hl), IH; [reflexivity | discriminate | exact Hls].
Qed.

Lemma join_snoc_empty (sep : string) (ls : list string) :
  ls <> [] -> JS.join sep (ls ++ [""]) = JS.join sep ls ++ sep.
Proof.
  induction ls as [|l [|l' ls] IH]; [contradiction | |]; intros _.
  - simpl. now rewrite append_empty_r.
  - change ((l :: l' :: ls) ++ [""])%list with (l :: (l' :: ls) ++ [""])%list.
    change ((l' :: ls) ++ [""])%list with (l' :: (ls ++ [""]))%list.
    rewrite !join_cons.
    change (l' :: (ls ++ [""]))%list with ((l' :: ls) ++ [""])%list.
    rewrite IH by discriminate. now rewrite !append_assoc.
Qed.

Lemma forallb_plain_one (ls : list string) :
  forallb plainLine ls = true -> forallb oneLine ls = true.
Proof.
  induction ls as [|l ls IH]; [reflexivity |]. cbn [forallb].
  unfold plainLine at 1. intros [[Hl _]%andb_prop Hls]%andb_prop.
  now rewrite Hl, IH.
Qed.

End LineBreaks.

(** X6. Lines joined by line feeds, or by carriage return and line feed,
    are split back into the same lines (none of them holding a line feed
    or, for the former, ending with a carriage return), so [parseCSV]
    reads a file alike with either line ending; a line break after the
    last line changes nothing either. *)
Theorem line_endings_are_equivalent (ls : list string) :
  ls <> [] ->
  forallb plainLine ls = true ->
  JS.split_lines (JS.join nl ls) = ls /\
  JS.split_lines (JS.join crlf ls) = ls /\
  parseCSV (JS.join crlf ls) = parseCSV (JS.join nl ls) /\
  parseCSV (JS.join nl ls ++ nl) = parseCSV (JS.join nl ls) /\
  parseCSV (JS.join crlf ls ++ crlf) = parseCSV (JS.join nl ls).
Proof.
  intros Hne Hplain. pose proof (forallb_plain_one ls Hplain) as Hone.
  pose proof (split_join_nl ls Hne Hplain) as Hnl.
  pose proof (split_join_crlf ls Hne Hone) as Hcrlf.
  assert (forall sep, JS.split_lines (JS.join sep ls) = ls ->
                      JS.split_lines (JS.join sep (ls ++ [""])) = (ls ++ [""])%list ->
                      parseCSV (JS.join sep ls ++ sep) = parseCSV (JS.join nl ls))
    as Hfinal.
  { intros sep Hsplit Hsplit'. rewrite <- join_snoc_empty by exact Hne.
    unfold parseCSV, nonBlankLines. rewrite Hsplit', Hnl, List.filter_app. simpl.
    now rewrite app_nil_r. }
  repeat split; try assumption.
  - unfold parseCSV, nonBlankLines. now rewrite Hnl, Hcrlf.
  - apply Hfinal; [exact Hnl |]. apply split_join_nl; [now destruct ls |].
    rewrite forallb_app, Hplain. reflexivity.
  - apply Hfinal; [exact Hcrlf |]. apply split_join_crlf; [now destruct ls |].
    rewrite forallb_app, Hone. reflexivity.
Qed.

Lemma line_endings_are_equivalent_witness :
  let ls := ["name,score"; "Alice,10"; "Bob,20"] in
  ls <> [] /\ forallb plainLine ls = true /\
  parseCSV (JS.join crlf ls) = parseCSV (JS.join nl ls).
Proof.
  intros ls.
  assert (ls <> []) as Hne by discriminate.
  assert (forallb plainLine ls = true) as Hplain by reflexivity.
  split; [exact Hne |]. split; [exact Hplain |].
  exact (proj1 (proj2 (proj2 (line_endings_are_equivalent ls Hne Hplain)))).
Defined.

(** ** Export and import *)

Section ExportImport.

Lemma splitFields_prefix (f : string) :
  forall (inside : bool) (rest : string),
    allChars (notChar JS.quote) f = true ->
    inside = true \/ allChars (notChar JS.comma) f = true ->
    splitFields inside (f ++ rest) = prependField f (splitFields inside rest).
Proof.
  induction f as [|c f IH]; intros inside rest Hq Hc.
  - change ("" ++ rest) with rest. pose proof (splitFields_nonempty inside rest).
    destruct (splitFields inside rest); [contradiction | reflexivity].
  - rewrite append_cons. cbn [allChars] in Hq.
    apply andb_prop in Hq as [Hcq%negb_true_iff Hq].
    cbn [splitFields]. rewrite Hcq.
    assert (Ascii.eqb c JS.comma && negb inside = false) as ->.
    { destruct Hc as [-> | Hc]; [apply andb_false_r |].
      cbn [allChars] in Hc. apply andb_prop in Hc as [Hcc%negb_true_iff _].
      now rewrite Hcc. }
    rewrite IH; [| exact Hq |].
    + pose proof (splitFields_nonempty inside rest).
      destruct (splitFields inside rest); [contradiction | reflexivity].
    + destruct Hc as [-> | Hc]; [now left | right].
      cbn [allChars] in Hc. now apply andb_prop in Hc as [_ Hc].
Qed.

Lemma dropLastQuote_snoc (f : string) :
  JS.dropLastQuote (f ++ String JS.quote "") = f.
Proof.
  induction f as [|c f IH]; [reflexivity |].
  rewrite append_cons. cbn [JS.dropLastQuote]. rewrite IH.
  destruct f; reflexivity.
Qed.

Lemma dropLastQuote_plain (f : string) :
  allChars (notChar JS.quote) f = true -> JS.dropLastQuote f = f.
Proof.
  induction f as [|c f IH]; [reflexivity |]. cbn [allChars].
  intros [Hc%negb_true_iff Hf]%andb_prop. cbn [JS.dropLastQuote].
  rewrite (IH Hf), Hc. now destruct f.
Qed.

Lemma cleanField_quoted (f : string) : cleanField (quoted f) = JS.trim f.
Proof. unfold cleanField, quoted. simpl. now rewrite dropLastQuote_snoc. Qed.

Lemma cleanField_plain (f : string) :
  allChars (notChar JS.quote) f = true -> cleanField f = JS.trim f.
Proof.
  intros Hf. unfold cleanField, JS.stripQuotes.
  destruct f as [|c f]; [reflexivity |].
  pose proof Hf as Hf'. cbn [allChars] in Hf'.
  apply andb_prop in Hf' as [Hc%negb_true_iff _].
  now rewrite Hc, dropLastQuote_plain.
Qed.

(** A quoted cell without a quote inside is one field, commas and all. *)
Lemma splitFields_quoted (f : string) :
  allChars (notChar JS.quote) f = true ->
  splitFields false (quoted f) = [quoted f] /\
  forall rest : string,
    splitFields false (quoted f ++ String JS.comma rest)
    = quoted f :: splitFields false rest.
Proof.
  intros Hf.
  assert (forall tail : string,
             splitFields false (String JS.quote (f ++ String JS.quote tail))
             = prependField (String JS.quote (f ++ String JS.quote ""))
                 (splitFields false tail)) as Hscan.
  { intros tail. cbn [splitFields]. change (Ascii.eqb JS.quote JS.quote) with true.
    change (Ascii.eqb JS.quote JS.comma) with false. cbn [andb negb].
    rewrite (splitFields_prefix f true _ Hf) by now left.
    cbn [splitFields]. change (Ascii.eqb JS.quote JS.quote) with true.
    change (Ascii.eqb JS.quote JS.comma) with false. cbn [andb negb].
    pose proof (splitFields_nonempty false tail).
    destruct (splitFields false tail) as [|g gs]; [contradiction |].
    cbn [prependField]. now rewrite !append_cons, append_assoc, append_cons. }
  unfold quoted. split.
  - rewrite (Hscan ""). simpl. rewrite ?append_empty_r. reflexivity.
  - intros rest. rewrite append_cons, append_assoc, append_cons.
    change ("" ++ String JS.comma rest) with (String JS.comma rest).
    rewrite (Hscan _).
    cbn [splitFields]. change (Ascii.eqb JS.comma JS.quote) with false.
    change (Ascii.eqb JS.comma JS.comma) with true. cbn [andb negb prependField].
    rewrite ?append_empty_r. reflexivity.
Qed.

(** The line written for a row is read back as the row's cell texts,
    trimmed. *)
Lemma parseLine_quoted_cells (cells : list string) :
  cells <> [] ->
  forallb (fun cell => allChars (notChar JS.quote) cell) cells = true ->
  parseLine (JS.join "," (List.map quoted cells)) = List.map JS.trim cells.
Proof.
  rewrite parseLine_splitFields.
  induction cells as [|cell [|cell' cells] IH]; [contradiction | |]; intros _.
  - cbn [forallb List.map JS.join]. rewrite andb_true_r. intros Hcell.
    rewrite (proj1 (splitFields_quoted _ Hcell)).
    cbn [List.map]. now rewrite cleanField_quoted.
  - cbn [forallb]. intros [Hcell Hcells]%andb_prop.
    cbn [List.map]. rewrite join_cons.
    change ("," ++ JS.join "," (quoted cell' :: List.map quoted cells))
      with (String JS.comma (JS.join "," (List.map quoted (cell' :: cells)))).
    rewrite (proj2 (splitFields_quoted _ Hcell)). cbn [List.map].
    rewrite cleanField_quoted. f_equal. apply IH; [discriminate | exact Hcells].
Qed.

(** A line of simple names is read back as those names. *)
Lemma parseLine_simple_names (names : list string) :
  names <> [] ->
  forallb simpleName names = true ->
  parseLine (JS.join "," names) = names.
Proof.
  rewrite parseLine_splitFields.
  assert (forall name : string,
             simpleName name = true ->
             allChars (notChar JS.quote) name = true /\
             allChars (notChar JS.comma) name = true /\
             cleanField name = name) as Hsimple.
  { intros name [[Hchars _]%andb_prop Htrim]%andb_prop.
    apply String.eqb_eq in Htrim.
    assert (allChars (notChar JS.quote) name = true /\
            allChars (notChar JS.comma) name = true) as [Hq Hc].
    { clear Htrim. induction name as [|c name IH]; [now split |].
      cbn [allChars] in *. apply andb_prop in Hchars as [[Hc Hq]%andb_prop Hrest].
      destruct (IH Hrest) as [-> ->]. now rewrite Hc, Hq. }
    repeat split; [exact Hq | exact Hc |]. now rewrite cleanField_plain. }
  induction names as [|name [|name' names] IH]; [contradiction | |]; intros _.
  - cbn [forallb JS.join]. rewrite andb_true_r. intros (Hq & Hc & Hclean)%Hsimple.
    rewrite <- (append_empty_r name) at 1.
    rewrite (splitFields_prefix name false "" Hq) by now right.
    cbn [splitFields prependField List.map]. now rewrite append_empty_r, Hclean.
  - cbn [forallb]. intros [(Hq & Hc & Hclean)%Hsimple Hnames]%andb_prop.
    rewrite join_cons, (splitFields_prefix name false _ Hq) by now right.
    change ("," ++ JS.join "," (name' :: names))
      with (String JS.comma (JS.join "," (name' :: names))).
    cbn [splitFields]. change (Ascii.eqb JS.comma JS.quote) with false.
    change (Ascii.eqb JS.comma JS.comma) with true. cbn [andb negb prependField List.map].
    rewrite append_empty_r, Hclean. f_equal. apply IH; [discriminate | exact Hnames].
Qed.

Lemma endsWithCR_app (a : string) (c : ascii) (b : string) :
  endsWithCR (a ++ String c b) = endsWithCR (String c b).
Proof.
  induction a as [|x a IH]; [reflexivity |].
  rewrite append_cons. destruct a as [|y a]; [reflexivity |].
  rewrite append_cons in *. exact IH.
Qed.

Lemma endsWithCR_snoc (a : string) (c : ascii) :
  endsWithCR (a ++ String c "") = Ascii.eqb c JS.CR.
Proof. now rewrite endsWithCR_app. Qed.

Lemma quoted_plain (cell : string) :
  oneLine cell = true ->
  oneLine (quoted cell) = true /\ endsWithCR (quoted cell) = false.
Proof.
  intros Hone. unfold quoted. split.
  - unfold oneLine in *. cbn [allChars]. now rewrite allChars_app, Hone.
  - now rewrite <- append_cons, endsWithCR_snoc.
Qed.

(** The line written for a row is a plain line that is not blank. *)
Lemma exportedLine_plain (cols : list string) (row : gmap string JS.Value) :
  cols <> [] ->
  forallb (fun col => quotable (exportedCell row col)) cols = true ->
  plainLine (exportedLine cols row) = true /\
  JS.trim (exportedLine cols row) <> "".
Proof.
  intros Hcols Hcells.
  assert (oneLine (exportedLine cols row) = true /\
          endsWithCR (exportedLine cols row) = false /\
          exists body, exportedLine cols row = String JS.quote body)
    as (Hone & Hcr & body & Hbody).
  { unfold exportedLine. revert Hcols Hcells.
    induction cols as [|col [|col' cols] IH]; [contradiction | |]; intros _.
    - cbn [forallb List.map JS.join]. rewrite andb_true_r. unfold quotable.
      intros [_ Hone]%andb_prop. destruct (quoted_plain _ Hone) as [H1 H2].
      repeat split; [exact H1 | exact H2 | now eexists].
    - cbn [forallb]. intros [Hcol Hrest]%andb_prop.
      destruct (IH ltac:(discriminate) Hrest) as (Hone' & Hcr' & body' & Hbody').
      unfold quotable in Hcol. apply andb_prop in Hcol as [_ Hone].
      destruct (quoted_plain _ Hone) as [H1 H2].
      cbn [List.map] in *. rewrite join_cons, Hbody'.
      rewrite Hbody' in Hone', Hcr'.
      change ("," ++ String JS.quote body')
        with (String JS.comma (String JS.quote body')).
      repeat split.
      + unfold oneLine in *. rewrite allChars_app, H1. cbn [allChars] in *.
        now rewrite Hone'.
      + rewrite endsWithCR_app. exact Hcr'.
      + unfold quoted. rewrite append_cons. now eexists. }
  split.
  - unfold plainLine. now rewrite Hone, Hcr.
  - rewrite Hbody. now apply trim_nonblank.
Qed.

Lemma trimEnd_fixed_not_CR (s : string) :
  JS.trimEnd s = s -> endsWithCR s = false.
Proof.
  induction s as [|c s IH]; [reflexivity |]. cbn [JS.trimEnd].
  destruct (JS.trimEnd s) as [|d t] eqn:Ht.
  - destruct (JS.isWhiteSpace c) eqn:Hc; [discriminate |].
    intros [= <-]. simpl. destruct (Ascii.eqb_spec c JS.CR) as [-> | _]; [| reflexivity].
    discriminate Hc.
  - intros [= Hs]. subst s. exact (IH eq_refl).
Qed.

Lemma trimmed_not_CR (s : string) : JS.trim s = s -> endsWithCR s = false.
Proof.
  intros Htrim. apply trimEnd_fixed_not_CR.
  assert (JS.trimStart s = s) as Hstart.
  { apply trimStart_fixed. rewrite <- Htrim. apply trimEnd_head, trimStart_head. }
  unfold JS.trim in Htrim. now rewrite Hstart in Htrim.
Qed.

(** A line of simple names is a plain line. *)
Lemma join_names_plain (names : list string) :
  names <> [] ->
  forallb simpleName names = true ->
  plainLine (JS.join "," names) = true.
Proof.
  assert (forall name, simpleName name = true ->
                       oneLine name = true /\ endsWithCR name = false) as Hsimple.
  { intros name [[_ Hone]%andb_prop Htrim%String.eqb_eq]%andb_prop.
    split; [exact Hone | now apply trimmed_not_CR]. }
  unfold plainLine.
  induction names as [|name [|name' names] IH]; [contradiction | |]; intros _.
  - cbn [forallb JS.join]. rewrite andb_true_r. intros [-> ->]%Hsimple. reflexivity.
  - cbn [forallb]. intros [[Hone _]%Hsimple Hrest]%andb_prop.
    specialize (IH ltac:(discriminate) Hrest).
    apply andb_prop in IH as [Hone' Hcr'].
    rewrite join_cons.
    set (tail := JS.join "," (name' :: names)) in *.
    change ("," ++ tail) with (String JS.comma tail).
    unfold oneLine in *. rewrite allChars_app, Hone. cbn [allChars].
    rewrite Hone'. simpl. rewrite endsWithCR_app.
    destruct tail as [|c tail']; [reflexivity | exact Hcr'].
Qed.

Lemma filter_all {A : Type} (p : A -> bool) (l : list A) :
  forallb p l = true -> List.filter p l = l.
Proof.
  induction l as [|x l IH]; [reflexivity |]. simpl.
  intros [-> Hl]%andb_prop. now rewrite IH.
Qed.

(** What [parseCSV] makes of the text [downloadCSV] writes. *)
Lemma parseCSV_csvContent (d : Dataset) :
  exportable d = true ->
  headers (parseCSV (csvContent d)) = ds_columns d /\
  rows (parseCSV (csvContent d))
  = List.map (fun row =>
                forEach_header (ds_columns d) 0
                  (List.map (fun col => JS.trim (exportedCell row col)) (ds_columns d)) ∅)
      (ds_data d).
Proof.
  destruct d as [name cols data id]. unfold exportable. cbn [ds_columns ds_data].
  intros [[Hnames Hblank%negb_true_iff]%andb_prop Hcells]%andb_prop.
  assert (cols <> []) as Hcols by (intros ->; discriminate Hblank).
  set (lines := JS.join "," cols :: List.map (exportedLine cols) data).
  assert (csvContent {| ds_name := name; ds_columns := cols; ds_data := data;
                        ds_id := id |} = JS.join nl lines) as -> by reflexivity.
  assert (forall row, In row data ->
            plainLine (exportedLine cols row) = true /\
            JS.trim (exportedLine cols row) <> "" /\
            parseLine (exportedLine cols row)
            = List.map (fun col => JS.trim (exportedCell row col)) cols) as Hrow.
  { intros row Hin. rewrite forallb_forall in Hcells. specialize (Hcells row Hin).
    destruct (exportedLine_plain cols row Hcols Hcells) as [Hplain Hnonblank].
    repeat split; [exact Hplain | exact Hnonblank |].
    unfold exportedLine. rewrite <- (List.map_map (exportedCell row) quoted).
    rewrite parseLine_quoted_cells, List.map_map; [reflexivity | now destruct cols |].
    rewrite forallb_forall. intros cell (col & <- & Hcol)%in_map_iff.
    rewrite forallb_forall in Hcells. specialize (Hcells col Hcol).
    unfold quotable in Hcells. now apply andb_prop in Hcells as [Hq _]. }
  assert (forallb plainLine lines = true) as Hplain.
  { cbn [lines forallb]. rewrite (join_names_plain cols Hcols Hnames). simpl.
    rewrite forallb_forall. intros l (row & <- & Hin)%in_map_iff. now apply Hrow. }
  assert (forallb (fun l => negb (String.eqb (JS.trim l) "")) lines = true) as Hfull.
  { cbn [lines forallb]. rewrite Hblank. simpl.
    rewrite forallb_forall. intros l (row & <- & Hin)%in_map_iff.
    destruct (Hrow row Hin) as (_ & Hnonblank & _).
    now apply negb_true_iff, String.eqb_neq. }
  unfold parseCSV, nonBlankLines.
  rewrite (split_join_nl lines ltac:(discriminate) Hplain), (filter_all _ _ Hfull).
  cbn [lines headers rows]. rewrite (parseLine_simple_names cols Hcols Hnames).
  split; [reflexivity |]. rewrite List.map_map. apply List.map_ext_in.
  intros row Hin. unfold parseRow. now rewrite (proj2 (proj2 (Hrow row Hin))).
Qed.

End ExportImport.

(** X7. When the column names of a dataset are simple (no comma, quote or
    line feed, no white space at the ends, not a single empty name) and no
    cell text holds a quote or a line feed, [parseCSV] reads the text
    [downloadCSV] writes back into the same columns and as many rows.
    Under every column but one named [__proto__], every cell is what the
    ingestor makes of the cell's exported text, trimmed: so a comma inside
    a cell survives, a value that is missing, [undefined] or [null] comes
    back as the empty string, and a string that the ingestor would keep as
    it is comes back unchanged.  Under a column named [__proto__] the
    cells are lost: the column comes back, its rows have no value of
    their own there. *)
Theorem export_then_import (d : Dataset) :
  exportable d = true ->
  headers (parseCSV (csvContent d)) = ds_columns d /\
  List.length (rows (parseCSV (csvContent d))) = List.length (ds_data d) /\
  forall (n : nat) (row : gmap string JS.Value) (col : string),
    ds_data d !! n = Some row ->
    col ∈ ds_columns d ->
    exists row' : gmap string JS.Value,
      rows (parseCSV (csvContent d)) !! n = Some row' /\
      (col = "__proto__" ->
       row' !! col = None /\
       JS.getProperty row' col = JS.VObject "[object Object]") /\
      (col <> "__proto__" ->
       row' !! col = Some (cellValue (Some (JS.trim (exportedCell row col)))) /\
       (JS.nullish (JS.getProperty row col) (JS.VString "") = JS.VString "" ->
        row' !! col = Some (JS.VString "")) /\
       (forall s : string,
           row !! col = Some (JS.VString s) ->
           JS.trim s = s -> cellValue (Some s) = JS.VString s ->
           row' !! col = Some (JS.VString s))).
Proof.
  intros Hd. destruct (parseCSV_csvContent d Hd) as [Hh Hr].
  split; [exact Hh |]. rewrite Hr. split; [apply length_map |].
  intros n row col Hrow Hcol.
  eexists. split; [rewrite lookup_map, Hrow; reflexivity |]. cbn [fmap option_fmap option_map].
  split.
  - intros ->.
    assert (forEach_header (ds_columns d) 0
              (List.map (fun col => JS.trim (exportedCell row col)) (ds_columns d)) ∅
            !! "__proto__" = None) as Hnone
        by (rewrite forEach_header_proto; apply lookup_empty).
    split; [exact Hnone |]. unfold JS.getProperty. now rewrite Hnone.
  - intros Hproto.
    destruct (last_occurrence _ _ Hcol) as (j & Hj & Hlast).
    assert (forEach_header (ds_columns d) 0
              (List.map (fun col => JS.trim (exportedCell row col)) (ds_columns d)) ∅
            !! col = Some (cellValue (Some (JS.trim (exportedCell row col))))) as Hcell.
    { rewrite (forEach_header_last _ 0 _ ∅ col j Hj Hlast Hproto).
      change (0 + j) with j. now rewrite lookup_map, Hj. }
    split; [exact Hcell |]. split.
    + intros Hempty. rewrite Hcell. unfold exportedCell. now rewrite Hempty.
    + intros s Hs Htrim Hkeep. rewrite Hcell. unfold exportedCell, JS.getProperty.
      rewrite Hs. simpl JS.ToString. now rewrite Htrim, Hkeep.
Qed.

Lemma export_then_import_witness :
  exportable guestsDataset = true /\
  headers (parseCSV (csvContent guestsDataset)) = ["name"; "city"] /\
  (exists row' : gmap string JS.Value,
      rows (parseCSV (csvContent guestsDataset)) !! 0 = Some row' /\
      row' !! "city" = Some (JS.VString "") /\
      row' !! "name" = Some (JS.VString "Ann, Dr.")) /\
  exportable protoDataset = true /\
  exists row' : gmap string JS.Value,
    rows (parseCSV (csvContent protoDataset)) !! 0 = Some row' /\
    row' !! "__proto__" = None.
Proof.
  assert (exportable guestsDataset = true) as Hd by reflexivity.
  assert (exportable protoDataset = true) as Hp by reflexivity.
  destruct (export_then_import guestsDataset Hd) as (Hh & _ & Hcells).
  destruct (export_then_import protoDataset Hp) as (_ & _ & Hproto).
  split; [exact Hd |]. split; [exact Hh |]. split; [| split; [exact Hp |]].
  - set (row := <["name" := JS.VString "Ann, Dr."]> {["city" := JS.VUndefined]}
                : gmap string JS.Value).
    destruct (Hcells 0 row "city" eq_refl ltac:(repeat constructor))
      as (row' & Hrow' & _ & Hcity).
    destruct (Hcells 0 row "name" eq_refl ltac:(repeat constructor))
      as (row'' & Hrow'' & _ & Hname).
    destruct (Hcity ltac:(discriminate)) as (_ & Hcity' & _).
    destruct (Hname ltac:(discriminate)) as (_ & _ & Hname').
    exists row'. split; [exact Hrow' |]. split; [exact (Hcity' eq_refl) |].
    rewrite Hrow' in Hrow''. injection Hrow'' as <-.
    exact (Hname' "Ann, Dr." eq_refl eq_refl eq_refl).
  - set (row := <["a" := JS.VNumber (JS.ofZ 1)]> ∅ : gmap string JS.Value).
    destruct (Hproto 0 row "__proto__" eq_refl ltac:(repeat constructor))
      as (row' & Hrow' & Hlost & _).
    exists row'. split; [exact Hrow' | exact (proj1 (Hlost eq_refl))].
Defined.

(** ** Invariants of the conversation *)

Section Invariants.

(** What holds at the start and is kept by every step holds throughout. *)
Lemma run_invariant (I : World -> Prop) (allowed : Event -> Prop) :
  (forall (w : World) (e : Event), allowed e -> I w -> I (step w e)) ->
  forall (es : list Event) (w : World), I w -> Forall allowed es -> I (run w es).
Proof.
  intros Hstep. induction es as [|e es IH]; intros w Hw Hes; [exact Hw |].
  apply Forall_cons_1 in Hes as [He Hes]. simpl. apply IH; [| exact Hes].
  now apply Hstep.
Qed.

Lemma Forall_any {A : Type} (l : list A) : Forall (fun _ => True) l.
Proof. induction l; constructor; auto. Qed.

(** The exchanges a step adds, if it adds any. *)
Lemma step_messages (w : World) (e : Event) :
  messages (app (step w e)) = messages (app w) \/
  messages (app (step w e)) = [] \/
  exists m : Message,
    messages (app (step w e)) = (messages (app w) ++ [m])%list /\
    ((exists (textOverride : option string) (now date : N) (call : AnalyzeCall),
         e = Send textOverride now date /\
         handleSendMessage textOverride now date (app w)
         = (app (step w e), Some call) /\
         msg_role m = user /\ msg_response m = None /\
         msg_content m = queryOf textOverride (input (app w))) \/
     (exists (outcome : TryOutcome) (now date : N) (call : AnalyzeCall),
         e = Settle outcome now date /\ inFlight w = Some call /\
         msg_role m = assistant /\
         match analyzeData (call_query call) (call_dataset call)
                 (call_history call) outcome with
         | inl response =>
             msg_response m = Some response /\ msg_content m = insight response
         | inr message => msg_response m = None /\ msg_content m = message
         end)).
Proof.
  destruct e; simpl.
  - left. apply handleFileUpload_frame.
  - destruct (handleSendMessage textOverride now date (app w)) as [st [call|]] eqn:Hs.
    + right. right. pose proof Hs as Hs'.
      destruct (handleSendMessage_call _ _ _ _ _ _ Hs) as (Hd & Hq & Hl).
      rewrite (handleSendMessage_accepted _ _ textOverride now date Hd Hq Hl) in Hs.
      injection Hs as <- <-. eexists. split; [reflexivity |]. left.
      exists textOverride, now, date. eexists. repeat split. exact Hs'.
    + left. simpl. unfold handleSendMessage in Hs.
      destruct (dataset (app w)); [| now injection Hs as <-].
      destruct (_ || _); [now injection Hs as <- | discriminate].
  - destruct (inFlight w) as [call|] eqn:Hw; [| now left].
    right. right. simpl. eexists. split; [reflexivity |]. right.
    exists outcome, now, date, call.
    destruct (analyzeData _ _ _ outcome); repeat split.
  - right. now left.
  - right. now left.
  - now left.
  - now left.
  - left. apply renderChat_frame.
Qed.

Lemma step_wellFormed (w : World) (e : Event) :
  Forall wellFormed (messages (app w)) ->
  Forall wellFormed (messages (app (step w e))).
Proof.
  intros Hw.
  destruct (step_messages w e) as [-> | [-> | (m & -> & Hm)]];
    [exact Hw | constructor |].
  apply Forall_app. split; [exact Hw |]. constructor; [| constructor].
  unfold wellFormed.
  destruct Hm as [(t & n & d & call & _ & Hs & -> & -> & ->)
                 | (o & n & d & call & _ & _ & -> & Hresult)].
  - now destruct (handleSendMessage_call _ _ _ _ _ _ Hs) as (_ & Hq & _).
  - destruct (analyzeData _ _ _ o) as [response | message] eqn:Ha.
    + destruct Hresult as [-> ->]. reflexivity.
    + destruct Hresult as [-> ->]. exact (analyzeData_message _ _ _ _ _ Ha).
Qed.

(** ** The chart refs *)

Lemma renderMessage_keeps (refs : gmap string (option nat)) (m : Message)
    (key : string) (r : option nat) :
  refs !! key = Some r -> renderMessage refs m !! key = Some r.
Proof.
  intros Hkey. unfold renderMessage. destruct (msg_response m); [| exact Hkey].
  destruct (refs !! msg_id m) eqn:Hid; [exact Hkey |].
  rewrite lookup_insert_ne; [exact Hkey | congruence].
Qed.

Lemma renderMessage_keys (refs : gmap string (option nat)) (m : Message)
    (key : string) :
  is_Some (renderMessage refs m !! key) ->
  is_Some (refs !! key) \/ (key = msg_id m /\ is_Some (msg_response m)).
Proof.
  unfold renderMessage. destruct (msg_response m) as [response|]; [| now left].
  destruct (refs !! msg_id m) eqn:Hid; [now left |].
  destruct (decide (msg_id m = key)) as [<- | Hne].
  - right. split; [reflexivity | now eexists].
  - rewrite lookup_insert_ne by exact Hne. now left.
Qed.

Lemma renderMessage_own (refs : gmap string (option nat)) (m : Message) :
  is_Some (msg_response m) -> is_Some (renderMessage refs m !! msg_id m).
Proof.
  intros [response Hm]. unfold renderMessage. rewrite Hm.
  destruct (refs !! msg_id m) eqn:Hid; [now rewrite Hid |].
  rewrite lookup_insert_eq. now eexists.
Qed.

Lemma render_keeps (ms : list Message) (refs : gmap string (option nat))
    (key : string) (r : option nat) :
  refs !! key = Some r -> fold_left renderMessage ms refs !! key = Some r.
Proof.
  revert refs. induction ms as [|m ms IH]; intros refs Hkey; [exact Hkey |].
  simpl. now apply IH, renderMessage_keeps.
Qed.

Lemma render_keys (ms : list Message) (refs : gmap string (option nat))
    (key : string) :
  is_Some (fold_left renderMessage ms refs !! key) ->
  is_Some (refs !! key) \/
  exists m : Message, m ∈ ms /\ msg_id m = key /\ is_Some (msg_response m).
Proof.
  revert refs. induction ms as [|m ms IH]; intros refs; simpl; [now left |].
  intros [[Hrefs | [-> Hm]]%renderMessage_keys | (m' & Hin & Hid & Hm')]%IH.
  - now left.
  - right. exists m. split; [apply list_elem_of_here | now split].
  - right. exists m'. split; [now apply list_elem_of_further | now split].
Qed.

Lemma render_covers (ms : list Message) (refs : gmap string (option nat))
    (m : Message) :
  m ∈ ms -> is_Some (msg_response m) ->
  is_Some (fold_left renderMessage ms refs !! msg_id m).
Proof.
  revert refs. induction ms as [|m' ms IH]; intros refs Hin Hm.
  - now apply elem_of_nil in Hin.
  - simpl. apply elem_of_cons in Hin as [-> | Hin]; [| now apply IH].
    destruct (renderMessage_own refs m' Hm) as [r Hr].
    rewrite (render_keeps ms _ _ r Hr). now eexists.
Qed.

Lemma render_nothing_new (ms : list Message) (refs : gmap string (option nat)) :
  (forall m : Message,
      m ∈ ms -> is_Some (msg_response m) -> is_Some (refs !! msg_id m)) ->
  fold_left renderMessage ms refs = refs.
Proof.
  induction ms as [|m ms IH]; intros Hall; [reflexivity |]. simpl.
  assert (renderMessage refs m = refs) as ->.
  { unfold renderMessage. destruct (msg_response m) eqn:Hm; [| reflexivity].
    destruct (Hall m) as [r ->];
      [apply list_elem_of_here | rewrite Hm; eauto | reflexivity]. }
  apply IH. intros m' Hin. apply Hall. now apply list_elem_of_further.
Qed.

End Invariants.

(** X8. At most one call of [analyzeData] is in flight at any time: in
    every state the application can reach, the in-flight flag is set
    exactly while a call is in flight; while one is, a submission changes
    nothing; and a call that settles when none is in flight changes
    nothing either. *)
Theorem one_call_at_a_time
    (es : list Event) (textOverride : option string) (now date : N)
    (outcome : TryOutcome) :
  let w := run initialWorld es in
  (loading (app w) = true <-> is_Some (inFlight w)) /\
  (is_Some (inFlight w) -> step w (Send textOverride now date) = w) /\
  (inFlight w = None -> step w (Settle outcome now date) = w).
Proof.
  cbv zeta. pose proof (loading_iff_inFlight es) as Hiff.
  split; [exact Hiff |]. split.
  - intros Hflight%Hiff. simpl.
    rewrite (handleSendMessage_rejected _ textOverride now date) by now left.
    now destruct (run initialWorld es).
  - intros Hnone. simpl. now rewrite Hnone.
Qed.

Lemma one_call_at_a_time_witness :
  let w := run initialWorld
             [ Upload (Some scoresFile) "k3j9x2ab1";
               Send (Some "Who scored most?") 1700000001000 1700000001000 ] in
  is_Some (inFlight w) /\
  step w (Send (Some "And least?") 1700000001500 1700000001500) = w.
Proof.
  intros w. assert (is_Some (inFlight w)) as H by (vm_compute; eauto).
  split; [exact H |].
  exact (proj1 (proj2 (one_call_at_a_time _ (Some "And least?")
                         1700000001500 1700000001500 EmptyText)) H).
Defined.

(** X9. In every state the application can reach, every exchange of the
    conversation is well formed: a user exchange has a text that is not
    blank and carries no response; an assistant exchange either carries a
    response, whose insight is its content, or carries none and has a
    content that is not empty.  So only assistant exchanges carry a
    response. *)
Theorem exchanges_are_well_formed (es : list Event) (m : Message) :
  m ∈ messages (app (run initialWorld es)) ->
  wellFormed m /\ (is_Some (msg_response m) -> msg_role m = assistant).
Proof.
  intros Hin.
  assert (Forall wellFormed (messages (app (run initialWorld es)))) as Hall.
  { apply (run_invariant (fun w => Forall wellFormed (messages (app w)))
             (fun _ => True)).
    - intros w e _. apply step_wellFormed.
    - constructor.
    - apply Forall_any. }
  rewrite Forall_forall in Hall. specialize (Hall m Hin).
  split; [exact Hall |]. intros [response Hm]. unfold wellFormed in Hall.
  rewrite Hm in Hall. now destruct (msg_role m).
Qed.

Lemma exchanges_are_well_formed_witness :
  exists m : Message,
    m ∈ messages (app (run initialWorld lateReplySession)) /\
    msg_role m = assistant /\ wellFormed m.
Proof.
  eexists. split; [apply list_elem_of_here |]. split; [reflexivity |].
  exact (proj1 (exchanges_are_well_formed lateReplySession _
                  ltac:(apply list_elem_of_here))).
Defined.

(** Without a reset, user and assistant take turns, and the length of the
    conversation tells whether a call is in flight. *)
Lemma turns_invariant (es : list Event) :
  Forall (fun e => resets e = false) es ->
  (forall (i : nat) (m : Message),
      messages (app (run initialWorld es)) !! i = Some m ->
      msg_role m = turn i) /\
  Nat.odd (List.length (messages (app (run initialWorld es))))
  = loading (app (run initialWorld es)) /\
  (loading (app (run initialWorld es)) = true <->
   is_Some (inFlight (run initialWorld es))).
Proof.
  intros Hes.
  apply (run_invariant
         (fun w => (forall (i : nat) (m : Message),
                       messages (app w) !! i = Some m -> msg_role m = turn i) /\
                   Nat.odd (List.length (messages (app w))) = loading (app w) /\
                   (loading (app w) = true <-> is_Some (inFlight w)))
         (fun e => resets e = false)); [| | exact Hes].
2:{ repeat split; [intros i m [=] | discriminate | now intros [? [=]]]. }
clear. intros w e He (Hturn & Hodd & Hflight).
assert (forall m : Message,
           msg_role m = turn (List.length (messages (app w))) ->
           forall (i : nat) (m' : Message),
             (messages (app w) ++ [m])%list !! i = Some m' ->
             msg_role m' = turn i) as Hsnoc.
{ intros m Hm i m' Hi. apply lookup_app_Some in Hi as [Hi | [Hlen Hi]].
  - now apply Hturn.
  - apply list_lookup_singleton_Some in Hi as [Hi <-].
    now replace i with (List.length (messages (app w))) by lia. }
pose proof (conj Hturn (conj Hodd Hflight)) as Hsame.
destruct e; simpl in He; try discriminate He; simpl.
- destruct (handleFileUpload_frame (app w) file randomId) as (-> & _ & -> & _).
  exact Hsame.
- destruct (handleSendMessage textOverride now date (app w)) as [st [call|]] eqn:Hs.
  + destruct (handleSendMessage_call _ _ _ _ _ _ Hs) as (Hd & Hq & Hl).
    rewrite (handleSendMessage_accepted _ _ textOverride now date Hd Hq Hl) in Hs.
    injection Hs as <- <-. simpl. rewrite Hl in Hodd.
    rewrite length_app, Nat.add_1_r, Nat.odd_succ, <- Nat.negb_odd, Hodd.
    split; [| split; [reflexivity | split; [now eexists | reflexivity]]].
    apply Hsnoc. unfold turn. simpl. now rewrite <- Nat.negb_odd, Hodd.
  + unfold handleSendMessage in Hs.
    destruct (dataset (app w)); [| injection Hs as <-; exact Hsame].
    destruct (_ || _); [injection Hs as <-; exact Hsame | discriminate].
- destruct (inFlight w) as [call|] eqn:Hw; [| rewrite <- Hw in Hsame; exact Hsame].
  simpl. assert (loading (app w) = true) as Hl by (apply Hflight; eauto).
  rewrite Hl in Hodd.
  rewrite length_app, Nat.add_1_r, Nat.odd_succ, <- Nat.negb_odd, Hodd.
  split; [| split; [reflexivity | split; [discriminate | now intros [? [=]]]]].
  apply Hsnoc. unfold turn. rewrite <- Nat.negb_odd, Hodd.
  now destruct (analyzeData _ _ _ outcome).
- exact Hsame.
- exact Hsame.
- destruct (renderChat_frame (app w)) as [-> ->]. exact Hsame.
Qed.

(** X10. As long as the chat is not reset, user and assistant take turns
    in the conversation, the user first, and the conversation ends with a
    user exchange exactly while a call is in flight. *)
Theorem turns_alternate_without_reset (es : list Event) :
  Forall (fun e => resets e = false) es ->
  let w := run initialWorld es in
  (forall (i : nat) (m : Message),
      messages (app w) !! i = Some m -> msg_role m = turn i) /\
  Nat.odd (List.length (messages (app w))) = loading (app w) /\
  (is_Some (inFlight w) <-> Nat.odd (List.length (messages (app w))) = true).
Proof.
  intros Hes. cbv zeta.
  destruct (turns_invariant es Hes) as (Hturn & Hodd & Hflight).
  split; [exact Hturn |]. split; [exact Hodd |].
  rewrite Hodd. symmetry. exact Hflight.
Qed.

Lemma turns_alternate_without_reset_witness :
  Forall (fun e => resets e = false) chartSession /\
  List.map msg_role (messages (app (run initialWorld chartSession)))
  = [user; assistant].
Proof.
  assert (Forall (fun e => resets e = false) chartSession) as H
      by (repeat constructor).
  split; [exact H |].
  pose proof (proj1 (turns_alternate_without_reset chartSession H)) as Hturn.
  cbv zeta in Hturn.
  set (ms := messages (app (run initialWorld chartSession))) in *.
  assert (List.length ms = 2) as Hlen by reflexivity.
  destruct ms as [|m0 [|m1 [|m2 ms]]]; try discriminate Hlen.
  simpl. now rewrite (Hturn 0 m0 eq_refl), (Hturn 1 m1 eq_refl).
Defined.

(** X11. No chart ref is stale: in every state the application can reach,
    every key of the [chartRefs] object is the id of an exchange that is
    in the conversation and carries a response.  After the reset it has
    no key at all. *)
Theorem chart_refs_belong_to_exchanges (es : list Event) (key : string) :
  is_Some (chartRefs (app (run initialWorld es)) !! key) ->
  exists m : Message,
    m ∈ messages (app (run initialWorld es)) /\
    msg_id m = key /\ is_Some (msg_response m).
Proof.
  revert key.
  apply (run_invariant
           (fun w => forall key : string,
                is_Some (chartRefs (app w) !! key) ->
                exists m : Message,
                  m ∈ messages (app w) /\ msg_id m = key /\
                  is_Some (msg_response m))
           (fun _ => True)); [| | apply Forall_any].
  2:{ intros key. simpl. rewrite lookup_empty. now intros [? [=]]. }
  intros w e _ Hw key.
  assert (forall added : list Message,
             is_Some (chartRefs (app w) !! key) ->
             exists m : Message,
               m ∈ (messages (app w) ++ added)%list /\ msg_id m = key /\
               is_Some (msg_response m)) as Hmore.
  { intros added (m & Hin & Hm)%Hw. exists m. split; [| exact Hm].
    apply elem_of_app. now left. }
  destruct e; simpl.
  - destruct (handleFileUpload_frame (app w) file randomId) as (-> & -> & _ & _).
    apply Hw.
  - destruct (handleSendMessage textOverride now date (app w)) as [st [call|]] eqn:Hs.
    + destruct (handleSendMessage_call _ _ _ _ _ _ Hs) as (Hd & Hq & Hl).
      rewrite (handleSendMessage_accepted _ _ textOverride now date Hd Hq Hl) in Hs.
      injection Hs as <- <-. simpl. apply Hmore.
    + unfold handleSendMessage in Hs.
      destruct (dataset (app w)); [| injection Hs as <-; apply Hw].
      destruct (_ || _); [injection Hs as <-; apply Hw | discriminate].
  - destruct (inFlight w); [simpl; apply Hmore | apply Hw].
  - rewrite lookup_empty. now intros [? [=]].
  - rewrite lookup_empty. now intros [? [=]].
  - apply Hw.
  - apply Hw.
  - unfold renderChat. destruct (activeTab (app w)); try apply Hw.
    destruct (dataset (app w)); [| apply Hw]. simpl.
    intros [Hold | Hnew]%render_keys; [now apply Hw | exact Hnew].
Qed.

Lemma chart_refs_belong_to_exchanges_witness :
  is_Some (chartRefs (app (run initialWorld chartSession)) !! "1700000002001") /\
  exists m : Message,
    m ∈ messages (app (run initialWorld chartSession)) /\
    msg_id m = "1700000002001" /\ is_Some (msg_response m).
Proof.
  assert (is_Some (chartRefs (app (run initialWorld chartSession))
                     !! "1700000002001")) as H by (vm_compute; eauto).
  split; [exact H | exact (chart_refs_belong_to_exchanges chartSession _ H)].
Defined.



Lemma renderChat_cases (st : AppState) :
  ((activeTab st <> TabChat \/ dataset st = None) /\ renderChat st = st) \/
  (activeTab st = TabChat /\ is_Some (dataset st) /\
   renderChat st
   = {| activeTab := activeTab st; dataset := dataset st;
        messages := messages st; input := input st; loading := loading st;
        chartRefs := fold_left renderMessage (messages st) (chartRefs st) |}).
Proof.
  unfold renderChat. destruct (activeTab st);
    try (left; split; [left; discriminate | reflexivity]).
  destruct (dataset st) as [d|].
  - right. repeat split. now eexists.
  - left. split; [now right | reflexivity].
Qed.

(** X13. Rendering the chat view gives a ref to every exchange that
    carries a response, keeps the refs that exist, and changes nothing
    when done again; outside the chat tab, or with no dataset, it changes
    nothing at all. *)
Theorem render_creates_each_ref_once (st : AppState) :
  renderChat (renderChat st) = renderChat st /\
  (forall (key : string) (r : option nat),
      chartRefs st !! key = Some r -> chartRefs (renderChat st) !! key = Some r) /\
  (activeTab st = TabChat -> is_Some (dataset st) ->
   forall m : Message,
     m ∈ messages st -> is_Some (msg_response m) ->
     is_Some (chartRefs (renderChat st) !! msg_id m)) /\
  (activeTab st <> TabChat \/ dataset st = None -> renderChat st = st).
Proof.
  destruct (renderChat_cases st) as [[Hout Hsame] | (Htab & Hd & Hrender)].
  - rewrite Hsame. repeat split; auto.
    intros Htab [d Hd]. destruct Hout; congruence.
  - split; [| split; [| split]].
    + rewrite Hrender. unfold renderChat. simpl. rewrite Htab.
      destruct Hd as [d ->]. f_equal.
      apply render_nothing_new. intros m. apply render_covers.
    + intros key r. rewrite Hrender. apply render_keeps.
    + intros _ _ m. rewrite Hrender. apply render_covers.
    + intros [Hout | Hout]; [contradiction |].
      destruct Hd as [d Hd]. congruence.
Qed.

Lemma render_creates_each_ref_once_witness :
  let st := app (run initialWorld chartSession) in
  activeTab st = TabChat /\ is_Some (dataset st) /\
  exists m : Message,
    m ∈ messages st /\ is_Some (msg_response m) /\
    is_Some (chartRefs (renderChat st) !! msg_id m).
Proof.
  intros st.
  assert (activeTab st = TabChat) as Htab by reflexivity.
  assert (is_Some (dataset st)) as Hd by (vm_compute; eauto).
  split; [exact Htab |]. split; [exact Hd |].
  set (ms := messages st).
  assert (exists m0 m1, ms = [m0; m1] /\ is_Some (msg_response m1))
    as (m0 & m1 & Hms & Hm1) by (vm_compute; eauto).
  exists m1.
  assert (m1 ∈ messages st) as Hin
      by (fold ms; rewrite Hms; apply list_elem_of_further, list_elem_of_here).
  split; [exact Hin |]. split; [exact Hm1 |].
  exact (proj1 (proj2 (proj2 (render_creates_each_ref_once st))) Htab Hd m1 Hin Hm1).
Defined.

(** X14. An accepted submission is answered whatever else happens before
    its call settles, short of a reset: uploads, typing, changes of tab,
    renders and further submissions in between leave the conversation as
    the submission left it, and the reply is appended right after the
    user exchange, with the in-flight flag cleared and no call left in
    flight. *)
Theorem other_events_do_not_disturb
    (w : World) (d : Dataset) (textOverride : option string)
    (now date now' date' : N) (outcome : TryOutcome) (es : list Event) :
  dataset (app w) = Some d ->
  JS.trim (queryOf textOverride (input (app w))) <> "" ->
  loading (app w) = false ->
  Forall quiet es ->
  exists userMsg reply : Message,
    messages (app (run w (Send textOverride now date :: es)))
    = (messages (app w) ++ [userMsg])%list /\
    messages (app (run w (Send textOverride now date :: es
                          ++ [Settle outcome now' date'])))
    = (messages (app w) ++ [userMsg; reply])%list /\
    msg_content userMsg = queryOf textOverride (input (app w)) /\
    msg_role userMsg = user /\ msg_role reply = assistant /\
    loading (app (run w (Send textOverride now date :: es
                         ++ [Settle outcome now' date']))) = false /\
    inFlight (run w (Send textOverride now date :: es
                     ++ [Settle outcome now' date'])) = None.
Proof.
  intros Hd Hq Hl Hes. unfold run. simpl. rewrite fold_left_app. simpl.
  rewrite (handleSendMessage_accepted (app w) d textOverride now date Hd Hq Hl).
  match goal with |- context [fold_left step es ?w1] => set (sent := w1) end.
  destruct (run_while_in_flight es sent eq_refl Hes) as (Hm & _ & Hf).
  unfold run in Hm, Hf. rewrite Hf, Hm. simpl. rewrite Hm. simpl.
  rewrite <- app_assoc. simpl.
  destruct (analyzeData _ _ _ outcome); eexists _, _; repeat split.
Qed.

Lemma other_events_do_not_disturb_witness :
  let es := [ SetInput "And least?";
              Send None 1700000001500 1700000001500;
              Upload None "";
              Render ] in
  dataset readyState = Some scoresDataset /\
  Forall quiet es /\
  List.length
    (messages (app (run {| app := readyState; inFlight := None |}
                      (Send None 1700000001000 1700000001000 :: es
                       ++ [Settle EmptyText 1700000002000 1700000002000]))))
  = 4.
Proof.
  intros es.
  assert (Forall quiet es) as Hes by (repeat constructor).
  split; [reflexivity |]. split; [exact Hes |].
  destruct (other_events_do_not_disturb
              {| app := readyState; inFlight := None |} scoresDataset None
              1700000001000 1700000001000 1700000002000 1700000002000
              EmptyText es eq_refl ltac:(vm_compute; discriminate) eq_refl Hes)
    as (userMsg & reply & _ & -> & _).
  reflexivity.
Defined.



(** ** The export file *)

Section ExportFile.

Lemma beforeDot_split (s : string) :
  noDot (beforeDot s) = true /\
  exists rest : string,
    s = beforeDot s ++ rest /\
    (rest = "" \/ exists rest', rest = String "." rest').
Proof.
  unfold noDot. induction s as [|c s (Hno & rest & Hs & Hrest)]; simpl.
  - split; [reflexivity |]. exists "". split; [reflexivity | now left].
  - destruct (Ascii.eqb_spec c ".") as [-> | Hc].
    + split; [reflexivity |]. exists (String "." s). split; [reflexivity |].
      right. now eexists.
    + split.
      * simpl. rewrite Hno. unfold notChar.
        now destruct (Ascii.eqb_spec c ".").
      * exists rest. split; [| exact Hrest]. rewrite append_cons. now rewrite <- Hs.
Qed.

End ExportFile.

(** X16. [downloadCSV] offers nothing when no dataset is loaded.
    Otherwise the file is named [InsightAI_<base>_export.csv], where
    [<base>] is the dataset's name up to its first dot (the whole name
    when it has none, nothing when it starts with one), and its text has
    the column names, not quoted, as first line. *)
Theorem export_file_name (d : Dataset) :
  downloadCSV None = None /\
  exists (base rest content : string),
    downloadCSV (Some d) = Some ("InsightAI_" ++ base ++ "_export.csv", content) /\
    ds_name d = base ++ rest /\ noDot base = true /\
    (rest = "" \/ exists rest', rest = String "." rest') /\
    (noDot (ds_name d) = true -> base = ds_name d) /\
    exists body : list string,
      content = JS.join nl (JS.join "," (ds_columns d) :: body) /\
      List.length body = List.length (ds_data d).
Proof.
  split; [reflexivity |].
  destruct (beforeDot_split (ds_name d)) as (Hno & rest & Hname & Hrest).
  exists (beforeDot (ds_name d)), rest, (csvContent d).
  split; [reflexivity |]. split; [exact Hname |]. split; [exact Hno |].
  split; [exact Hrest |]. split.
  - intros Hplain. revert Hplain. unfold noDot. clear.
    induction (ds_name d) as [|c s IH]; simpl; [reflexivity |].
    unfold notChar at 1. intros [Hc Hs]%andb_prop.
    apply negb_true_iff in Hc. rewrite Hc. now rewrite IH.
  - eexists. split; [reflexivity |]. apply length_map.
Qed.

Lemma export_file_name_witness :
  let d := sampleDataset (parseCSV sampleCSV) "scores" "k3j9x2ab1" in
  noDot (ds_name d) = true /\
  exists content : string,
    downloadCSV (Some d) = Some ("InsightAI_scores_export.csv", content).
Proof.
  intros d.
  assert (noDot (ds_name d) = true) as Hplain by reflexivity.
  split; [exact Hplain |].
  destruct (export_file_name d)
    as (_ & base & rest & content & Hfile & _ & _ & _ & Hbase & _).
  exists content. rewrite Hfile, (Hbase Hplain). reflexivity.
Defined.

(** ** The data table *)

Section DataTable.

Lemma string_of_uint_head (d : Decimal.uint) :
  d <> Decimal.Nil ->
  exists (c : ascii) (s : string),
    NilEmpty.string_of_uint d = String c s /\ c <> "-"%char.
Proof.
  destruct d; intros Hd; [contradiction | ..]; simpl; eexists _, _;
    (split; [reflexivity | discriminate]).
Qed.

Lemma digitsOfN_head (n : N) :
  exists (c : ascii) (s : string), JS.digitsOfN n = String c s /\ c <> "-"%char.
Proof.
  unfold JS.digitsOfN. apply string_of_uint_head.
  destruct n as [|p]; simpl; [discriminate |].
  apply DecimalPos.Unsigned.to_uint_nonnil.
Qed.

Lemma substring_head (c : ascii) (s : string) (n : nat) :
  (0 < n)%nat ->
  String.substring 0 n (String c s) = String c (String.substring 0 (n - 1) s).
Proof.
  destruct n as [|n]; [lia |]. intros _. simpl. now rewrite Nat.sub_0_r.
Qed.

Lemma formatDigits_head (c : ascii) (s : string) (n : Z) :
  c <> "-"%char ->
  exists (c' : ascii) (s' : string),
    JS.formatDigits (String c s) n = String c' s' /\ c' <> "-"%char.
Proof.
  intros Hc. unfold JS.formatDigits.
  set (k := Z.of_nat (String.length (String c s))).
  assert (1 <= k)%Z as Hk by (unfold k; simpl; lia).
  destruct ((-5 <=? n)%Z && (n <=? 21)%Z).
  - destruct (Z.leb_spec k n).
    + rewrite append_cons. eauto.
    + destruct (Z.ltb_spec 0 n).
      * rewrite substring_head by lia. rewrite append_cons. eauto.
      * eexists _, _. split; [reflexivity | discriminate].
  - destruct (Z.eqb_spec k 1).
    + rewrite append_cons. eauto.
    + rewrite substring_head by lia. rewrite append_cons. eauto.
Qed.

(** The text of a number is never empty and never a lone minus sign. *)
Lemma Number_toString_shown (x : spec_float) :
  JS.Number_toString x <> "" /\ JS.Number_toString x <> "-".
Proof.
  destruct x as [neg | neg | | neg m e]; unfold JS.Number_toString.
  - split; discriminate.
  - destruct neg; split; discriminate.
  - split; discriminate.
  - destruct (JS.shortest 17 m e (JS.decade 640 m e (-324)) 1) as [s n'].
    destruct (digitsOfN_head (JS.dropTrailingZeros 17 s)) as (c & t & -> & Hc).
    destruct (formatDigits_head c t n' Hc) as (c' & t' & -> & Hc').
    destruct neg.
    + change ("-" ++ String c' t') with (String "-" (String c' t')).
      split; discriminate.
    + change ("" ++ String c' t') with (String c' t').
      split; [discriminate |]. intros [= Heq _]. contradiction.
Qed.

Lemma parsed_cell (text : string) (row : gmap string JS.Value) (col : string)
    (v : JS.Value) :
  row ∈ rows (parseCSV text) -> row !! col = Some v ->
  exists val : option string, v = cellValue val.
Proof.
  unfold parseCSV. destruct (nonBlankLines text) as [|first rest]; simpl.
  { now intros ?%elem_of_nil. }
  intros (line & <- & _)%list_elem_of_In%in_map_iff.
  intros [Hempty | (j & _ & ->)]%forEach_header_values.
  { now rewrite lookup_empty in Hempty. }
  eauto.
Qed.

Lemma take_all_iff {A : Type} (n : nat) (l : list A) :
  take n l = l <-> (List.length l <= n)%nat.
Proof.
  split; [| apply take_ge].
  intros Heq. apply (f_equal (@List.length A)) in Heq.
  rewrite length_take in Heq. lia.
Qed.

End DataTable.

(** X17. In the data table, under a column other than [__proto__], a
    cell of an uploaded row shows the dash exactly when the row's value
    for the column is [undefined] (its line had no field there), the
    empty string, or the text of a dash.  Every other cell shows its
    value as text; in particular a number is never replaced by the dash.
    Under a column headed [__proto__] every cell shows
    [[object Object]], whatever the file has there. *)
Theorem table_dash_means_no_value
    (text : string) (row : gmap string JS.Value) (col : string) :
  row ∈ rows (parseCSV text) ->
  col ∈ headers (parseCSV text) ->
  (col = "__proto__" -> tableCell row col = "[object Object]") /\
  (col <> "__proto__" ->
   exists v : JS.Value,
     row !! col = Some v /\
     (tableCell row col = "-"
      <-> v = JS.VUndefined \/ v = JS.VString "" \/ v = JS.VString "-") /\
     (tableCell row col <> "-" -> tableCell row col = JS.ToString v) /\
     (forall x : spec_float,
         v = JS.VNumber x -> tableCell row col = JS.Number_toString x)).
Proof.
  intros Hrow Hcol. destruct (parsed_row text row Hrow) as [line Hline]. split.
  - intros ->. unfold tableCell, JS.getProperty.
    now rewrite Hline, parseRow_proto.
  - intros Hproto.
    destruct (proj2 (parseRow_keys (headers (parseCSV text)) line col)
                (conj Hcol Hproto)) as [v Hv].
    rewrite <- Hline in Hv. exists v. split; [exact Hv |].
    destruct (parsed_cell text row col v Hrow Hv) as [val ->].
    unfold tableCell, JS.getProperty. rewrite Hv. clear.
    destruct val as [field|]; cbn [cellValue].
    2:{ split; [| split]; [tauto | congruence | discriminate]. }
    destruct (negb (field =? "")%string
              && negb (JS.isNaN (JS.Number (JS.removeCommas field))));
      cbn [JS.ToString].
    + destruct (Number_toString_shown (JS.Number (JS.removeCommas field)))
        as [Hne Hnd].
      destruct (String.eqb_spec
                  (JS.Number_toString (JS.Number (JS.removeCommas field))) "")
        as [Heq | _]; [contradiction |].
      split; [| split].
      * split; [contradiction |]. intros [H | [H | H]]; discriminate.
      * reflexivity.
      * now intros x [= <-].
    + destruct (String.eqb_spec field "") as [-> | Hne].
      * split; [| split]; [tauto | congruence | discriminate].
      * split; [| split]; [| reflexivity | discriminate].
        split; [intros -> | intros [H | [[= H] | [= H]]]]; auto; try discriminate.
        contradiction.
Qed.

Lemma table_dash_means_no_value_witness :
  let row : gmap string JS.Value :=
    {[ "name" := JS.VString "Alice"; "score" := JS.VNumber (JS.ofZ 10) ]} in
  let short : gmap string JS.Value := parseRow ["a"; "__proto__"] "1" in
  (row ∈ rows (parseCSV sampleCSV) /\
   "score" ∈ headers (parseCSV sampleCSV) /\
   tableCell row "score" = "10") /\
  (short ∈ rows (parseCSV protoCSV) /\
   "__proto__" ∈ headers (parseCSV protoCSV) /\
   tableCell short "__proto__" = "[object Object]").
Proof.
  intros row short. split.
  - assert (row ∈ rows (parseCSV sampleCSV)) as Hrow.
    { apply list_elem_of_In. left. vm_compute. reflexivity. }
    assert ("score" ∈ headers (parseCSV sampleCSV)) as Hcol.
    { apply list_elem_of_In. right. left. vm_compute. reflexivity. }
    split; [exact Hrow |]. split; [exact Hcol |].
    destruct (proj2 (table_dash_means_no_value sampleCSV row "score" Hrow Hcol)
                ltac:(discriminate)) as (v & Hv & _ & _ & Hnum).
    assert (v = JS.VNumber (JS.ofZ 10)) as Hval.
    { assert (row !! "score" = Some (JS.VNumber (JS.ofZ 10))) as Hscore
          by (vm_compute; reflexivity).
      rewrite Hscore in Hv. now injection Hv. }
    rewrite (Hnum _ Hval). vm_compute. reflexivity.
  - assert (short ∈ rows (parseCSV protoCSV)) as Hrow by apply list_elem_of_here.
    assert ("__proto__" ∈ headers (parseCSV protoCSV)) as Hcol.
    { apply list_elem_of_In. right. left. vm_compute. reflexivity. }
    split; [exact Hrow |]. split; [exact Hcol |].
    exact (proj1 (table_dash_means_no_value protoCSV short "__proto__" Hrow Hcol)
             eq_refl).
Defined.

(** X18. The data table shows the first rows of the dataset in their
    order, never more than 200 of them, and the notice that rows were
    left out appears exactly when some were. *)
Theorem table_notice_iff_rows_hidden (d : Dataset) :
  (exists hidden : list (gmap string JS.Value),
      ds_data d = (tableRows d ++ hidden)%list /\
      (tableNotice d = true <-> hidden <> [])) /\
  (List.length (tableRows d) <= 200)%nat /\
  (tableNotice d = false <-> tableRows d = ds_data d).
Proof.
  unfold tableRows, tableNotice. split; [| split].
  - exists (drop 200 (ds_data d)). split; [now rewrite take_drop |].
    rewrite Nat.ltb_lt. split.
    + intros Hlt Hnil. apply (f_equal (@List.length _)) in Hnil.
      rewrite length_drop in Hnil. simpl in Hnil. lia.
    + intros Hne. destruct (Nat.lt_ge_cases 200 (List.length (ds_data d)))
        as [Hlt | Hge]; [exact Hlt |].
      now rewrite drop_ge in Hne.
  - rewrite length_take. lia.
  - rewrite take_all_iff, Nat.ltb_ge. tauto.
Qed.
